(** * Trading_bot_AWS: the per-account trade executor

    A shallow embedding of [trade_executor.py] (class [BybitTradeExecutor]),
    of the account defaults of [config.py] and of the webhook, status and
    control routes of [app.py], with the properties of the executor proved
    over it.

    Conventions of the embedding.
    - Python [float] is IEEE binary64: the kernel's primitive floats, with the
      same literals and the same operations.  A float division whose divisor
      compares equal to zero raises [ZeroDivisionError].
    - [self.exchange] (the ccxt client) is outside the repository.  It is an
      oracle: every method maps the requests issued so far to an outcome, a
      value or a raised exception.  The executor records each request it
      issues in [exchange_calls].
    - A method of the executor is a function from the executor's state to an
      outcome and a new state; a raised exception keeps the mutations made
      before it, as in Python.
    - Logging is not modelled; [time.sleep] is not modelled.
    - Position fields arrive as numbers, so [float(position[...])] is the
      identity on them. *)

From Stdlib Require Import ZArith Ascii String Uint63 PrimFloat Floats.
From stdpp Require Import base option list strings gmap fin_maps.

Set Warnings "-inexact-float".

(** ** Numbers and strings, as Python has them *)

(** [float(n)] for an [int] of magnitude below 2^63. *)
Definition float_of_int (z : Z) : float :=
  match z with
  | Z0 => 0%float
  | Zpos _ => PrimFloat.of_uint63 (Uint63.of_Z z)
  | Zneg p => PrimFloat.opp (PrimFloat.of_uint63 (Uint63.of_Z (Zpos p)))
  end.

(** [c.lower()] on the ASCII range. *)
Definition lower_ascii (c : ascii) : ascii :=
  let n := Ascii.N_of_ascii c in
  if ((65 <=? n) && (n <=? 90))%N then Ascii.ascii_of_N (n + 32) else c.

(** [s.lower()]. *)
Fixpoint lower (s : string) : string :=
  match s with
  | EmptyString => EmptyString
  | String c s' => String (lower_ascii c) (lower s')
  end.

(** ** config.py *)

Record AccountConfig := mkAccountConfig {
  api_key : string;
  api_secret : string;
  risk_percentage : float;
  leverage : Z;
  profit_lock_threshold : float;
  cfg_monitoring_active : bool;
  initial_sl_percentage : float;
  initial_tp_percentage : float;
  balance_threshold : float;
  is_testnet : bool
}.

(** The defaults of [AccountConfig.__init__]. *)
Definition default_config (key secret : string) : AccountConfig :=
  {| api_key := key; api_secret := secret;
     risk_percentage := 1.0%float; leverage := 5;
     profit_lock_threshold := 0.1%float; cfg_monitoring_active := true;
     initial_sl_percentage := 0.05%float; initial_tp_percentage := 0.3%float;
     balance_threshold := 100%float; is_testnet := false |}.

(** ** The exchange: positions, orders, requests *)

(** A position dict of [fetch_positions], with the keys the executor reads. *)
Record Position := mkPosition {
  pos_symbol : string;
  pos_side : string;
  contracts : float;
  unrealizedPnl : float;
  entryPrice : float;
  markPrice : float
}.

(** A value of a [params] dict. *)
Inductive Value :=
| VStr (s : string)
| VFloat (f : float)
| VBool (b : bool).

(** The keyword arguments of [exchange.create_order]; [params] keeps the
    keys of the dict literal in their order. *)
Record OrderRequest := mkOrderRequest {
  ord_symbol : string;
  ord_type : string;
  ord_side : string;
  ord_amount : float;
  ord_price : option string;
  ord_params : list (string * Value)
}.

(** What the exchange answers to an accepted order. *)
Definition Order := string.

(** A request issued on [self.exchange]. *)
Inductive Call :=
| FetchBalance
| FetchPositions (symbols : option (list string))
| CreateMarketOrder (req : OrderRequest)
| SetLeverage (lev : Z) (symbol : string)
| FetchTicker (symbol : string)
| Market (symbol : string)
| AmountToPrecision (symbol : string) (amount : float)
| PriceToPrecision (symbol : string) (price : float)
| CreateOrder (req : OrderRequest).

(** A Python call returns or raises; [Raises e] carries [str(e)]. *)
Inductive outcome (A : Type) :=
| Returns (a : A)
| Raises (e : string).
Arguments Returns {A} a.
Arguments Raises {A} e.

(** The exchange and the clock.  Each answer may depend on the requests issued
    before it.  [x_fetch_balance] is [float(balance['USDT']['total'])],
    [x_fetch_ticker] is [float(ticker['last'])], [x_market] is the lookup
    [market['precision']['amount']], whose value the executor does not use,
    and [x_amount_to_precision] is the [float] of the rounded amount. *)
Record Exchange := mkExchange {
  x_fetch_balance : list Call -> outcome float;
  x_fetch_positions : list Call -> option (list string) -> outcome (list Position);
  x_create_market_order : list Call -> OrderRequest -> outcome Order;
  x_set_leverage : list Call -> Z -> string -> outcome unit;
  x_fetch_ticker : list Call -> string -> outcome float;
  x_market : list Call -> string -> outcome unit;
  x_amount_to_precision : list Call -> string -> float -> outcome float;
  x_price_to_precision : list Call -> string -> float -> outcome string;
  x_create_order : list Call -> OrderRequest -> outcome Order;
  strftime : list Call -> string
}.

(** ** The executor's state *)

(** The dict logged by [place_order]. *)
Record TradeRecord := mkTradeRecord {
  tr_timestamp : string;
  tr_symbol : string;
  tr_side : string;
  tr_size : float;
  tr_entry_price : float;
  tr_tp_price : float;
  tr_sl_price : float;
  tr_order : Order
}.

(** The dict appended by [_record_profit_lock]. *)
Record ProfitLockEvent := mkProfitLockEvent {
  pl_timestamp : string;
  pl_profit_percentage : float
}.

(** The attributes of a [BybitTradeExecutor], with two fields of the model:
    [exchange_calls], the requests issued on [self.exchange] so far, and
    [monitor_threads], the number of live threads running
    [monitor_positions_profit]. *)
Record Executor := mkExecutor {
  account_id : string;
  config : AccountConfig;
  trading_enabled : bool;
  monitoring_active : bool;
  trade_history : list TradeRecord;
  failed_trades : list TradeRecord;
  closed_trades : list TradeRecord;
  profit_locks : gmap string (list ProfitLockEvent);
  total_profit_locks : nat;
  exchange_calls : list Call;
  monitor_threads : nat
}.

Definition set_trading_enabled (b : bool) (s : Executor) : Executor :=
  mkExecutor (account_id s) (config s) b (monitoring_active s)
    (trade_history s) (failed_trades s) (closed_trades s) (profit_locks s)
    (total_profit_locks s) (exchange_calls s) (monitor_threads s).

Definition set_monitoring_active (b : bool) (s : Executor) : Executor :=
  mkExecutor (account_id s) (config s) (trading_enabled s) b
    (trade_history s) (failed_trades s) (closed_trades s) (profit_locks s)
    (total_profit_locks s) (exchange_calls s) (monitor_threads s).

Definition set_trade_history (h : list TradeRecord) (s : Executor) : Executor :=
  mkExecutor (account_id s) (config s) (trading_enabled s) (monitoring_active s)
    h (failed_trades s) (closed_trades s) (profit_locks s)
    (total_profit_locks s) (exchange_calls s) (monitor_threads s).

Definition set_profit_locks (m : gmap string (list ProfitLockEvent))
    (s : Executor) : Executor :=
  mkExecutor (account_id s) (config s) (trading_enabled s) (monitoring_active s)
    (trade_history s) (failed_trades s) (closed_trades s) m
    (total_profit_locks s) (exchange_calls s) (monitor_threads s).

Definition set_total_profit_locks (n : nat) (s : Executor) : Executor :=
  mkExecutor (account_id s) (config s) (trading_enabled s) (monitoring_active s)
    (trade_history s) (failed_trades s) (closed_trades s) (profit_locks s)
    n (exchange_calls s) (monitor_threads s).

Definition set_exchange_calls (l : list Call) (s : Executor) : Executor :=
  mkExecutor (account_id s) (config s) (trading_enabled s) (monitoring_active s)
    (trade_history s) (failed_trades s) (closed_trades s) (profit_locks s)
    (total_profit_locks s) l (monitor_threads s).

Definition set_monitor_threads (n : nat) (s : Executor) : Executor :=
  mkExecutor (account_id s) (config s) (trading_enabled s) (monitoring_active s)
    (trade_history s) (failed_trades s) (closed_trades s) (profit_locks s)
    (total_profit_locks s) (exchange_calls s) n.

(** ** Methods: state and exceptions *)

Definition M (A : Type) : Type := Executor -> outcome A * Executor.

#[export] Instance M_ret : MRet M := fun A a s => (Returns a, s).

#[export] Instance M_bind : MBind M := fun A B k m s =>
  match m s with
  | (Returns a, s') => k a s'
  | (Raises e, s') => (Raises e, s')
  end.

(** [raise]. *)
Definition raise {A} (e : string) : M A := fun s => (Raises e, s).

(** [try: m except Exception as e: h e]. *)
Definition try_except {A} (m : M A) (h : string -> M A) : M A := fun s =>
  match m s with
  | (Returns a, s') => (Returns a, s')
  | (Raises e, s') => h e s'
  end.

(** Reading an attribute of [self], and assigning to [self]. *)
Definition gets {A} (f : Executor -> A) : M A := fun s => (Returns (f s), s).
Definition modify (f : Executor -> Executor) : M unit := fun s => (Returns tt, f s).

(** A request on [self.exchange]: the answer depends on the requests issued
    before it, and the request joins them. *)
Definition request {A} (c : Call) (answer : list Call -> outcome A) : M A :=
  fun s => (answer (exchange_calls s),
            set_exchange_calls (exchange_calls s ++ [c]) s).

(** [x / y] on floats. *)
Definition float_div {A} (x y : float) (k : float -> M A) : M A :=
  if PrimFloat.eqb y 0 then raise "float division by zero"
  else k (PrimFloat.div x y).

(** [for x in l: body x]. *)
Fixpoint for_each {A} (l : list A) (body : A -> M unit) : M unit :=
  match l with
  | [] => mret tt
  | x :: l' => body x ≫= fun _ => for_each l' body
  end.

(** ** trade_executor.py *)

(** The constant of [check_existing_position] and [monitor_positions_profit]. *)
Definition dust : float := 0.00001%float.

(** [abs(float(position['contracts']))]. *)
Definition abs_contracts (p : Position) : float := PrimFloat.abs (contracts p).

(** ['sell' if position['side'] == 'buy' else 'buy']. *)
Definition closing_side (p : Position) : string :=
  if String.eqb (pos_side p) "buy" then "sell" else "buy".

(** [is_opposite_side]. *)
Definition is_opposite_side (existing_position : Position) (new_side : string) : bool :=
  (String.eqb (pos_side existing_position) "buy" && String.eqb (lower new_side) "sell")
  || (String.eqb (pos_side existing_position) "sell" && String.eqb (lower new_side) "buy").

(** The result dict of [place_order]. *)
Inductive OrderResult :=
| ResError (message : string)
| ResSuccess (order : Order).

(** [result["status"]]. *)
Definition status (r : OrderResult) : string :=
  match r with
  | ResError _ => "error"
  | ResSuccess _ => "success"
  end.

(** The order of [close_all_positions] for one position. *)
Definition flatten_order (p : Position) : OrderRequest :=
  {| ord_symbol := pos_symbol p; ord_type := "market";
     ord_side := closing_side p; ord_amount := abs_contracts p;
     ord_price := None; ord_params := [("reduce_only", VBool true)] |}.

(** The new stop of [update_stop_loss]. *)
Definition new_sl (p : Position) : float :=
  if String.eqb (pos_side p) "buy" then (markPrice p * 0.99)%float
  else (markPrice p * 1.001)%float.

(** The order of [update_stop_loss], [price] being the rounded stop. *)
Definition stop_order (p : Position) (price : string) : OrderRequest :=
  {| ord_symbol := pos_symbol p; ord_type := "stop";
     ord_side := closing_side p; ord_amount := abs_contracts p;
     ord_price := Some price;
     ord_params := [("triggerPrice", VFloat (new_sl p));
                    ("reduceOnly", VBool true);
                    ("triggerBy", VStr "MarkPrice")] |}.

(** [tp_price] and [sl_price] of [place_order]. *)
Definition tp_price (c : AccountConfig) (side : string) (entry_price : float) : float :=
  if String.eqb (lower side) "buy"
  then (entry_price * (1 + initial_tp_percentage c))%float
  else (entry_price * (1 - initial_tp_percentage c))%float.

Definition sl_price (c : AccountConfig) (side : string) (entry_price : float) : float :=
  if String.eqb (lower side) "buy"
  then (entry_price * (1 - initial_sl_percentage c))%float
  else (entry_price * (1 + initial_sl_percentage c))%float.

(** The order of [place_order], [tp] and [sl] being the rounded prices. *)
Definition entry_order (symbol side : string) (position_size : float)
    (tp sl : string) : OrderRequest :=
  {| ord_symbol := symbol; ord_type := "market";
     ord_side := lower side; ord_amount := position_size;
     ord_price := None;
     ord_params := [("takeProfit", VStr tp); ("stopLoss", VStr sl);
                    ("tpTriggerBy", VStr "LastPrice");
                    ("slTriggerBy", VStr "LastPrice");
                    ("reduceOnly", VBool false)] |}.

(** [position_multiplier] of [place_order]. *)
Definition position_multiplier (existing_position : option Position)
    (side : string) : Z :=
  match existing_position with
  | Some p => if is_opposite_side p side then 2 else 1
  | None => 1
  end.

(** The profit percentage of [monitor_positions_profit], given the quotient
    [unrealized_pnl / (entry_price * position_size)]. *)
Definition profit_of_quotient (c : AccountConfig) (q : float) : float :=
  (q * 100 * float_of_int (leverage c))%float.

(** [_log_trade]. *)
Definition _log_trade (trade_data : TradeRecord) : M unit :=
  modify (fun s => set_trade_history (trade_history s ++ [trade_data]) s).

(** The two dict operations of [_record_profit_lock]. *)
Definition lock_append (symbol : string) (ev : ProfitLockEvent)
    (m : gmap string (list ProfitLockEvent)) : gmap string (list ProfitLockEvent) :=
  let m1 := match m !! symbol with
            | None => <[symbol := []]> m
            | Some _ => m
            end in
  alter (fun l => l ++ [ev]) symbol m1.

Section Methods.

Variable exchange : Exchange.

(** The body of the [for] loop of [close_all_positions]. *)
Definition close_position (position : Position) : M unit :=
  if PrimFloat.ltb 0 (abs_contracts position)
  then request (CreateMarketOrder (flatten_order position))
         (fun h => x_create_market_order exchange h (flatten_order position))
       ≫= fun _ => mret tt
  else mret tt.

(** [close_all_positions]. *)
Definition close_all_positions : M unit :=
  try_except
    (positions ← request (FetchPositions None) (fun h => x_fetch_positions exchange h None);
     for_each positions close_position)
    (fun _ => mret tt).

(** [get_wallet_balance]. *)
Definition get_wallet_balance : M float :=
  try_except
    (total_balance ← request FetchBalance (x_fetch_balance exchange);
     threshold ← gets (fun s => balance_threshold (config s));
     (if PrimFloat.ltb total_balance threshold
      then close_all_positions ≫= fun _ => modify (set_trading_enabled false)
      else mret tt) ≫= fun _ =>
     mret total_balance)
    (fun e => raise e).

(** [set_leverage]. *)
Definition set_leverage (symbol : string) : M unit :=
  try_except
    (lev ← gets (fun s => leverage (config s));
     request (SetLeverage lev symbol) (fun h => x_set_leverage exchange h lev symbol))
    (fun _ => mret tt).

(** [calculate_position_size]. *)
Definition calculate_position_size (symbol : string) (multiply_factor : float)
    : M (float * float) :=
  try_except
    (balance ← get_wallet_balance;
     current_price ← request (FetchTicker symbol) (fun h => x_fetch_ticker exchange h symbol);
     c ← gets config;
     let risk_amount :=
       (balance * (risk_percentage c / 100) * float_of_int (leverage c))%float in
     float_div risk_amount current_price (fun q =>
     let raw_position_size := (q * multiply_factor)%float in
     request (Market symbol) (fun h => x_market exchange h symbol) ≫= fun _ =>
     position_size ← request (AmountToPrecision symbol raw_position_size)
                       (fun h => x_amount_to_precision exchange h symbol raw_position_size);
     mret (position_size, current_price)))
    (fun e => raise e).

(** [check_existing_position]. *)
Definition check_existing_position (symbol : string) : M (option Position) :=
  try_except
    (positions ← request (FetchPositions (Some [symbol]))
                   (fun h => x_fetch_positions exchange h (Some [symbol]));
     mret (List.find (fun position => PrimFloat.ltb dust (abs_contracts position))
             positions))
    (fun e => raise e).

(** [place_order], lines 134 to 166: the bracket prices, the order and the
    trade record, given the size and the entry price. *)
Definition place_order_bracket (symbol side : string)
    (position_size entry_price : float) : M OrderResult :=
  c ← gets config;
  let tp := tp_price c side entry_price in
  let sl := sl_price c side entry_price in
  tp_str ← request (PriceToPrecision symbol tp)
             (fun h => x_price_to_precision exchange h symbol tp);
  sl_str ← request (PriceToPrecision symbol sl)
             (fun h => x_price_to_precision exchange h symbol sl);
  order ← request (CreateOrder (entry_order symbol side position_size tp_str sl_str))
            (fun h => x_create_order exchange h
                        (entry_order symbol side position_size tp_str sl_str));
  now ← gets (fun s => strftime exchange (exchange_calls s));
  _log_trade (mkTradeRecord now symbol side position_size entry_price tp sl order)
    ≫= fun _ =>
  mret (ResSuccess order).

(** [place_order], lines 128 to 166: the leverage, the size and the rest,
    given the multiplier. *)
Definition place_order_sized (symbol side : string) (multiplier : Z)
    : M OrderResult :=
  set_leverage symbol ≫= fun _ =>
  '(position_size, entry_price) ←
     calculate_position_size symbol (float_of_int multiplier);
  place_order_bracket symbol side position_size entry_price.

(** [place_order]. *)
Definition place_order (symbol side tp_order_type sl_order_type : string)
    : M OrderResult :=
  try_except
    (enabled ← gets trading_enabled;
     if negb enabled then mret (ResError "Trading is disabled")
     else
       existing_position ← check_existing_position symbol;
       place_order_sized symbol side (position_multiplier existing_position side))
    (fun e => mret (ResError e)).

(** [update_stop_loss]. *)
Definition update_stop_loss (position : Position) : M unit :=
  try_except
    (price ← request (PriceToPrecision (pos_symbol position) (new_sl position))
               (fun h => x_price_to_precision exchange h (pos_symbol position)
                           (new_sl position));
     request (CreateOrder (stop_order position price))
       (fun h => x_create_order exchange h (stop_order position price))
     ≫= fun _ => mret tt)
    (fun _ => mret tt).

(** [_record_profit_lock]. *)
Definition _record_profit_lock (symbol : string) (profit_percentage : float) : M unit :=
  now ← gets (fun s => strftime exchange (exchange_calls s));
  modify (fun s => set_profit_locks
                     (lock_append symbol (mkProfitLockEvent now profit_percentage)
                        (profit_locks s)) s) ≫= fun _ =>
  modify (fun s => set_total_profit_locks (total_profit_locks s + 1) s).

(** The body of the [for] loop of [monitor_positions_profit]. *)
Definition monitor_position (position : Position) : M unit :=
  if PrimFloat.leb (abs_contracts position) dust then mret tt
  else
    c ← gets config;
    float_div (unrealizedPnl position)
      (entryPrice position * abs_contracts position)%float (fun q =>
    let profit_percentage := profit_of_quotient c q in
    if PrimFloat.leb (profit_lock_threshold c * 100)%float profit_percentage
    then update_stop_loss position ≫= fun _ =>
         _record_profit_lock (pos_symbol position) profit_percentage
    else mret tt).

(** One pass of the [while] loop of [monitor_positions_profit], the test
    having succeeded. *)
Definition monitor_iteration : M unit :=
  try_except
    (positions ← request (FetchPositions None) (fun h => x_fetch_positions exchange h None);
     for_each positions monitor_position)
    (fun _ => mret tt).

(** A live monitor thread at the top of its [while] loop: it runs one pass,
    or returns and dies. *)
Definition monitor_loop_top : M unit :=
  gets monitoring_active ≫= fun active : bool =>
  if active then monitor_iteration
  else modify (fun s => set_monitor_threads (monitor_threads s - 1) s).

(** [start_profit_monitor]; creating and starting the thread is taken to
    succeed. *)
Definition start_profit_monitor : M unit :=
  modify (fun s => set_monitor_threads (monitor_threads s + 1) s).

End Methods.

(** The profit percentage that [monitor_positions_profit] computes for a
    position, the division not raising. *)
Definition profit_percentage (c : AccountConfig) (p : Position) : float :=
  profit_of_quotient c
    (unrealizedPnl p / (entryPrice p * abs_contracts p))%float.

(** The two tests of [monitor_positions_profit] that lead to a profit lock:
    the position is not skipped as dust and its profit percentage reaches the
    threshold. *)
Definition lock_due (c : AccountConfig) (p : Position) : bool :=
  negb (PrimFloat.leb (abs_contracts p) dust)
  && PrimFloat.leb (profit_lock_threshold c * 100)%float (profit_percentage c p).

(** The two calls of [monitor_positions_profit] for a position whose profit
    is to be locked. *)
Definition lock_position (x : Exchange) (c : AccountConfig) (p : Position) : M unit :=
  update_stop_loss x p ≫= fun _ =>
  _record_profit_lock x (pos_symbol p) (profit_percentage c p).

(** [BybitTradeExecutor.__init__]. *)
Definition init (id : string) (c : AccountConfig) : Executor :=
  let self := mkExecutor id c true (cfg_monitoring_active c) [] [] [] ∅ 0 [] 0 in
  if monitoring_active self then snd (start_profit_monitor self) else self.

(** ** app.py *)

(** The actions of [control_account] on the executor of the account; [None]
    is the answer 400, Invalid action. *)
Definition control_account (action : string) (s : Executor)
    : option string * Executor :=
  if String.eqb action "pause" then
    (Some "Trading paused", set_trading_enabled false s)
  else if String.eqb action "resume" then
    (Some "Trading resumed", set_trading_enabled true s)
  else if String.eqb action "toggle_monitor" then
    let s' := set_monitoring_active (negb (monitoring_active s)) s in
    (Some (if monitoring_active s' then "Monitoring enabled" else "Monitoring disabled"),
     s')
  else (None, s).

(** [trade_executors]: the executors by account id, in the order of
    [ACCOUNT_CONFIGS], each with its own exchange. *)
Abbreviation Accounts := (list (string * (Exchange * Executor))).

(** What [webhook] does for one account: the body of its [for] loop.  The
    inner [except] turns an exception into an error response. *)
Definition webhook_account (symbol side tp_order_type sl_order_type : string)
    (id : string) (x : Exchange) (s : Executor) : OrderResult * Executor :=
  if negb (trading_enabled s)
  then (ResError ("Trading is disabled for account " ++ id), s)
  else match place_order x symbol side tp_order_type sl_order_type s with
       | (Returns response, s') => (response, s')
       | (Raises e, s') => (ResError e, s')
       end.

(** The [for] loop of [webhook], filling the dict [responses]. *)
Fixpoint webhook_loop (symbol side tp_order_type sl_order_type : string)
    (accounts : Accounts) (responses : gmap string OrderResult)
    : gmap string OrderResult * Accounts :=
  match accounts with
  | [] => (responses, [])
  | (id, (x, s)) :: rest =>
      let '(response, s') :=
        webhook_account symbol side tp_order_type sl_order_type id x s in
      let '(responses', rest') :=
        webhook_loop symbol side tp_order_type sl_order_type rest
          (<[id := response]> responses) in
      (responses', (id, (x, s')) :: rest')
  end.

(** The answer of [webhook]: 400 with a message, or 200 with the responses. *)
Inductive WebhookAnswer :=
| WebhookRejected (code : nat) (message : string)
| WebhookAccepted (responses : gmap string OrderResult).

(** [webhook], for a JSON body that is an object with string values. *)
Definition webhook (data : gmap string string) (accounts : Accounts)
    : WebhookAnswer * Accounts :=
  match data !! "side", data !! "symbol" with
  | Some side, Some symbol =>
      let '(responses, accounts') :=
        webhook_loop symbol side
          (default "limit" (data !! "tpOrderType"))
          (default "market" (data !! "slOrderType")) accounts ∅ in
      (WebhookAccepted responses, accounts')
  | _, _ =>
      (WebhookRejected 400 "Missing required fields: ['side', 'symbol']", accounts)
  end.

(** The [data] dict of [get_account_status]. *)
Record AccountStatus := mkAccountStatus {
  st_trading_enabled : bool;
  st_monitoring_active : bool;
  st_total_trades : nat;
  st_failed_trades : nat;
  st_total_profit_locks : nat;
  st_balance : float
}.

(** [get_account_status] on the executor of the account: the values of the
    dict are evaluated in the order written, the balance last; [inr e] is the
    answer 500. *)
Definition get_account_status (x : Exchange) (s : Executor)
    : (AccountStatus + string) * Executor :=
  let enabled := trading_enabled s in
  let active := monitoring_active s in
  let total_trades := length (trade_history s) in
  let failed := length (failed_trades s) in
  let locks := total_profit_locks s in
  match get_wallet_balance x s with
  | (Returns balance, s') =>
      (inl (mkAccountStatus enabled active total_trades failed locks balance), s')
  | (Raises e, s') => (inr e, s')
  end.

(** The lookup [trade_executors[account_id]] of the account routes, and the
    handler run on the executor found; [None] is the answer 404. *)
Fixpoint on_account {A} (accounts : Accounts) (account_id : string)
    (handler : Exchange -> Executor -> A * Executor) : option A * Accounts :=
  match accounts with
  | [] => (None, [])
  | (id, (x, s)) :: rest =>
      if String.eqb id account_id
      then let '(a, s') := handler x s in (Some a, (id, (x, s')) :: rest)
      else let '(a, rest') := on_account rest account_id handler in
           (a, (id, (x, s)) :: rest')
  end.

(** The routes [/account/<account_id>/control] and
    [/account/<account_id>/status]. *)
Definition control_route (accounts : Accounts) (account_id action : string) :=
  on_account accounts account_id (fun _ s => control_account action s).

Definition status_route (accounts : Accounts) (account_id : string) :=
  on_account accounts account_id get_account_status.

(** ** Sample exchanges and accounts, for running the methods *)

Definition is_market_order (c : Call) : bool :=
  match c with
  | CreateMarketOrder _ => true
  | _ => false
  end.

(** An exchange with a fixed balance, fixed positions and last price 100,
    whose rounding is the identity; [orders_ok] says whether it accepts
    orders, and [flatten_ok] whether it accepts the nth market order of
    [close_all_positions]. *)
Definition sample_exchange (balance : float) (positions : list Position)
    (orders_ok : bool) (flatten_ok : nat -> bool) : Exchange :=
  {| x_fetch_balance := fun _ => Returns balance;
     x_fetch_positions := fun _ _ => Returns positions;
     x_create_market_order := fun h _ =>
       if flatten_ok (length (List.filter is_market_order h))
       then Returns "closed" else Raises "order rejected";
     x_set_leverage := fun _ _ _ => Returns tt;
     x_fetch_ticker := fun _ _ => Returns 100%float;
     x_market := fun _ _ => Returns tt;
     x_amount_to_precision := fun _ _ a => Returns a;
     x_price_to_precision := fun _ _ _ => Returns "price";
     x_create_order := fun _ _ =>
       if orders_ok then Returns "order-1" else Raises "order rejected";
     strftime := fun _ => "2024-01-01 00:00:00" |}.

Definition account1 : AccountConfig :=
  {| api_key := "key"; api_secret := "secret";
     risk_percentage := 1.0%float; leverage := 5;
     profit_lock_threshold := 0.1%float; cfg_monitoring_active := true;
     initial_sl_percentage := 0.05%float; initial_tp_percentage := 0.3%float;
     balance_threshold := 100%float; is_testnet := true |}.

Definition long_btc : Position :=
  mkPosition "BTCUSDT" "buy" 10%float 30%float 100%float 103%float.

Definition short_eth : Position :=
  mkPosition "ETHUSDT" "sell" (-2)%float 50%float 100%float 90%float.

Definition dust_sol : Position :=
  mkPosition "SOLUSDT" "buy" 0.000001%float 0%float 20%float 21%float.

(** An account configured with monitoring off. *)
Definition account_idle : AccountConfig :=
  {| api_key := "key"; api_secret := "secret";
     risk_percentage := 2.0%float; leverage := 10;
     profit_lock_threshold := 0.15%float; cfg_monitoring_active := false;
     initial_sl_percentage := 0.08%float; initial_tp_percentage := 0.4%float;
     balance_threshold := 200%float; is_testnet := true |}.

(** A position reported with entry price zero. *)
Definition zero_entry_xrp : Position :=
  mkPosition "XRPUSDT" "buy" 10%float 5%float 0%float 1%float.

(** ** The life of an executor *)

(** What can happen to an executor once built: a signal reaches
    [place_order], the status route reads the balance, the control route
    acts, or a live monitor thread comes to the top of its loop.  The
    exchange may answer differently each time. *)
Inductive step : Executor -> Executor -> Prop :=
| step_place_order (x : Exchange) (symbol side k1 k2 : string) (s : Executor) :
    step s (place_order x symbol side k1 k2 s).2
| step_status (x : Exchange) (s : Executor) :
    step s (get_wallet_balance x s).2
| step_control (action : string) (s : Executor) :
    step s (control_account action s).2
| step_monitor (x : Exchange) (s : Executor) :
    0 < monitor_threads s ->
    step s (monitor_loop_top x s).2.

Inductive reachable (id : string) (c : AccountConfig) : Executor -> Prop :=
| reachable_init : reachable id c (init id c)
| reachable_step (s s' : Executor) :
    reachable id c s -> step s s' -> reachable id c s'.

(** The number of events held in [profit_locks]. *)
Definition locks_held (m : gmap string (list ProfitLockEvent)) : nat :=
  map_fold (fun _ l n => length l + n) 0 m.

(** The counter agrees with the events held. *)
Definition locks_counted (s : Executor) : Prop :=
  total_profit_locks s = locks_held (profit_locks s).

(** The attributes that a pass of the monitor leaves alone. *)
Definition outside_locks (s : Executor) :=
  (account_id s, config s, trading_enabled s, monitoring_active s,
   trade_history s, failed_trades s, closed_trades s, monitor_threads s).

(** The attributes that requests on the exchange and the balance circuit
    breaker leave alone. *)
Definition books (s : Executor) :=
  (account_id s, config s, monitoring_active s, trade_history s,
   failed_trades s, closed_trades s, profit_locks s, total_profit_locks s,
   monitor_threads s).

(** [s'] comes from [s] by requests on the exchange and, possibly, the
    breaker. *)
Definition exchange_only (s s' : Executor) : Prop :=
  books s' = books s /\ exists l, exchange_calls s' = exchange_calls s ++ l.

(** [wp m s Q]: running [m] from [s] ends in an outcome and a state that
    satisfy [Q]. *)
Definition wp {A} (m : M A) (s : Executor) (Q : outcome A -> Executor -> Prop) : Prop :=
  Q (m s).1 (m s).2.

(** [keeps m]: [m] only issues requests and, possibly, trips the breaker. *)
Definition keeps {A} (m : M A) : Prop :=
  forall s, wp m s (fun _ s' => exchange_only s s').

(** [respects R m]: running [m] takes a state to a state related to it by
    [R], whether [m] returns or raises. *)
Definition respects (R : Executor -> Executor -> Prop) {A} (m : M A) : Prop :=
  forall s, wp m s (fun _ s' => R s s').

(** [trading_enabled] is not turned on. *)
Definition never_enables (s s' : Executor) : Prop :=
  trading_enabled s' = true -> trading_enabled s = true.

(** The requests issued from [s] to [s'] all satisfy [P]. *)
Definition requests_only (P : Call -> Prop) (s s' : Executor) : Prop :=
  exists l, exchange_calls s' = exchange_calls s ++ l /\ Forall P l.

(** The requests of the balance circuit breaker: the balance, the positions,
    and market orders with [reduce_only] set. *)
Definition breaker_call (c : Call) : Prop :=
  match c with
  | FetchBalance | FetchPositions None => True
  | CreateMarketOrder o =>
      ord_type o = "market" /\ ord_params o = [("reduce_only", VBool true)]
  | _ => False
  end.

(** The requests of a pass of the monitor: the positions, roundings, and
    stop orders with [reduceOnly] set. *)
Definition monitor_call (c : Call) : Prop :=
  match c with
  | FetchPositions None | PriceToPrecision _ _ => True
  | CreateOrder o =>
      ord_type o = "stop" /\ In ("reduceOnly", VBool true) (ord_params o)
  | _ => False
  end.

(** The requests of [place_order] before its order: anything but
    [create_order], and no market order other than the breaker's. *)
Definition before_order_call (c : Call) : Prop :=
  match c with
  | CreateOrder _ => False
  | CreateMarketOrder o =>
      ord_type o = "market" /\ ord_params o = [("reduce_only", VBool true)]
  | _ => True
  end.

(** The exchange [x] with other answers to [set_leverage]. *)
Definition with_set_leverage (f : list Call -> Z -> string -> outcome unit)
    (x : Exchange) : Exchange :=
  mkExchange (x_fetch_balance x) (x_fetch_positions x) (x_create_market_order x)
    f (x_fetch_ticker x) (x_market x) (x_amount_to_precision x)
    (x_price_to_precision x) (x_create_order x) (strftime x).

(** The profit locks only grow: the counter does not decrease, and the list
    of each symbol is extended at its end. *)
Definition locks_grow (s s' : Executor) : Prop :=
  total_profit_locks s <= total_profit_locks s' /\
  forall k l, profit_locks s !! k = Some l ->
    exists l', profit_locks s' !! k = Some (l ++ l').

(** ** Reasoning about methods *)

Lemma wp_run {A} (m : M A) s Q : wp m s Q <-> forall r s', m s = (r, s') -> Q r s'.
Proof.
  unfold wp. split.
  - intros H r s' E. rewrite E in H. exact H.
  - intros H. apply H. destruct (m s); reflexivity.
Qed.

Lemma wp_mono {A} (m : M A) s (Q Q' : outcome A -> Executor -> Prop) :
  wp m s Q -> (forall r s', Q r s' -> Q' r s') -> wp m s Q'.
Proof. unfold wp. auto. Qed.

Lemma wp_ret {A} (a : A) s (Q : outcome A -> Executor -> Prop) :
  Q (Returns a) s -> wp (mret a) s Q.
Proof. exact id. Qed.

Lemma wp_raise {A} e s (Q : outcome A -> Executor -> Prop) :
  Q (Raises e) s -> wp (raise e) s Q.
Proof. exact id. Qed.

Lemma wp_bind {A B} (m : M A) (k : A -> M B) s (Q : outcome B -> Executor -> Prop) :
  wp m s (fun r s1 => match r with
                      | Returns a => wp (k a) s1 Q
                      | Raises e => Q (Raises e) s1
                      end) ->
  wp (m ≫= k) s Q.
Proof.
  unfold wp, mbind, M_bind. destruct (m s) as [[a|e] s1]; simpl; auto.
Qed.

Lemma wp_try_except {A} (m : M A) (h : string -> M A) s
    (Q : outcome A -> Executor -> Prop) :
  wp m s (fun r s1 => match r with
                      | Returns a => Q (Returns a) s1
                      | Raises e => wp (h e) s1 Q
                      end) ->
  wp (try_except m h) s Q.
Proof.
  unfold wp, try_except. destruct (m s) as [[a|e] s1]; simpl; auto.
Qed.

Lemma wp_gets {A} (f : Executor -> A) s (Q : outcome A -> Executor -> Prop) :
  Q (Returns (f s)) s -> wp (gets f) s Q.
Proof. exact id. Qed.

Lemma wp_modify (f : Executor -> Executor) s (Q : outcome unit -> Executor -> Prop) :
  Q (Returns tt) (f s) -> wp (modify f) s Q.
Proof. exact id. Qed.

Lemma wp_request {A} (c : Call) (answer : list Call -> outcome A) s
    (Q : outcome A -> Executor -> Prop) :
  Q (answer (exchange_calls s)) (set_exchange_calls (exchange_calls s ++ [c]) s) ->
  wp (request c answer) s Q.
Proof. exact id. Qed.

Lemma wp_float_div {A} (x y : float) (k : float -> M A) s
    (Q : outcome A -> Executor -> Prop) :
  (PrimFloat.eqb y 0 = true -> Q (Raises "float division by zero") s) ->
  (PrimFloat.eqb y 0 = false -> wp (k (PrimFloat.div x y)) s Q) ->
  wp (float_div x y k) s Q.
Proof.
  unfold float_div. destruct (PrimFloat.eqb y 0); intros H1 H2; auto.
  apply wp_raise. auto.
Qed.

(** A loop keeps what its body keeps, whether it ends or raises. *)
Lemma wp_for_each {A} (l : list A) (body : A -> M unit) (I : Executor -> Prop) s :
  I s ->
  (forall a s1, a ∈ l -> I s1 -> wp (body a) s1 (fun _ s2 => I s2)) ->
  wp (for_each l body) s (fun _ s' => I s').
Proof.
  revert s. induction l as [|a l IH]; intros s Hs Hbody; simpl.
  - apply wp_ret. exact Hs.
  - apply wp_bind. eapply wp_mono.
    + apply (Hbody a s); [left | exact Hs].
    + intros [[]|e] s1 H1; simpl; [|exact H1].
      apply IH; [exact H1|]. intros b s2 Hb. apply Hbody. right. exact Hb.
Qed.

(** *** Requests only *)

Lemma exchange_only_refl s : exchange_only s s.
Proof. split; [reflexivity | exists []; symmetry; apply app_nil_r]. Qed.

Lemma exchange_only_trans s1 s2 s3 :
  exchange_only s1 s2 -> exchange_only s2 s3 -> exchange_only s1 s3.
Proof.
  intros [B1 [l1 E1]] [B2 [l2 E2]]. split; [congruence|].
  exists (l1 ++ l2). rewrite E2, E1. symmetry. apply app_assoc.
Qed.

Lemma exchange_only_request c s :
  exchange_only s (set_exchange_calls (exchange_calls s ++ [c]) s).
Proof. split; [reflexivity | exists [c]; reflexivity]. Qed.

Lemma exchange_only_trading b s : exchange_only s (set_trading_enabled b s).
Proof. split; [reflexivity | exists []; symmetry; apply app_nil_r]. Qed.

Lemma keeps_ret {A} (a : A) : keeps (mret a).
Proof. intros s. apply wp_ret, exchange_only_refl. Qed.

Lemma keeps_raise {A} e : keeps (@raise A e).
Proof. intros s. apply wp_raise, exchange_only_refl. Qed.

Lemma keeps_gets {A} (f : Executor -> A) : keeps (gets f).
Proof. intros s. apply wp_gets, exchange_only_refl. Qed.

Lemma keeps_request {A} c (answer : list Call -> outcome A) : keeps (request c answer).
Proof. intros s. apply wp_request, exchange_only_request. Qed.

Lemma keeps_bind {A B} (m : M A) (k : A -> M B) :
  keeps m -> (forall a, keeps (k a)) -> keeps (m ≫= k).
Proof.
  intros Hm Hk s. apply wp_bind. eapply wp_mono; [apply Hm|].
  intros [a|e] s1 H1; [|exact H1].
  eapply wp_mono; [apply Hk|]. intros r s2 H2. simpl in H2.
  eapply exchange_only_trans; eassumption.
Qed.

Lemma keeps_try_except {A} (m : M A) (h : string -> M A) :
  keeps m -> (forall e, keeps (h e)) -> keeps (try_except m h).
Proof.
  intros Hm Hh s. apply wp_try_except. eapply wp_mono; [apply Hm|].
  intros [a|e] s1 H1; [exact H1|].
  eapply wp_mono; [apply Hh|]. intros r s2 H2. simpl in H2.
  eapply exchange_only_trans; eassumption.
Qed.

Lemma keeps_float_div {A} x y (k : float -> M A) :
  (forall q, keeps (k q)) -> keeps (float_div x y k).
Proof.
  intros Hk. unfold float_div. destruct (PrimFloat.eqb y 0);
    [apply keeps_raise | apply Hk].
Qed.

Lemma keeps_for_each {A} (l : list A) (body : A -> M unit) :
  (forall a, keeps (body a)) -> keeps (for_each l body).
Proof.
  intros Hb. induction l as [|a l IH]; simpl.
  - apply keeps_ret.
  - apply keeps_bind; [apply Hb | intros _; exact IH].
Qed.

Create HintDb keeps discriminated.
#[export] Hint Resolve keeps_ret keeps_raise keeps_gets keeps_request
  keeps_float_div keeps_for_each : keeps.
#[export] Hint Extern 2 (keeps (_ ≫= _)) => apply keeps_bind; [|intros ?] : keeps.
#[export] Hint Extern 2 (keeps (try_except _ _)) =>
  apply keeps_try_except; [|intros ?] : keeps.
#[export] Hint Extern 3 (keeps (if ?b then _ else _)) => destruct b : keeps.
#[export] Hint Extern 3 (keeps (let '(_, _) := ?p in _)) => destruct p : keeps.

Lemma keeps_close_all_positions x : keeps (close_all_positions x).
Proof. unfold close_all_positions, close_position. auto 10 with keeps. Qed.

Lemma keeps_set_trading_enabled b : keeps (modify (set_trading_enabled b)).
Proof. intros s. apply wp_modify, exchange_only_trading. Qed.

#[export] Hint Resolve keeps_close_all_positions keeps_set_trading_enabled : keeps.

Lemma keeps_get_wallet_balance x : keeps (get_wallet_balance x).
Proof. unfold get_wallet_balance. auto 10 with keeps. Qed.

Lemma keeps_set_leverage x symbol : keeps (set_leverage x symbol).
Proof. unfold set_leverage. auto 10 with keeps. Qed.

#[export] Hint Resolve keeps_get_wallet_balance keeps_set_leverage : keeps.

Lemma keeps_calculate_position_size x symbol f :
  keeps (calculate_position_size x symbol f).
Proof. unfold calculate_position_size. auto 12 with keeps. Qed.

Lemma keeps_check_existing_position x symbol :
  keeps (check_existing_position x symbol).
Proof. unfold check_existing_position. auto 10 with keeps. Qed.

Lemma keeps_update_stop_loss x p : keeps (update_stop_loss x p).
Proof. unfold update_stop_loss. auto 10 with keeps. Qed.

#[export] Hint Resolve keeps_calculate_position_size keeps_check_existing_position
  keeps_update_stop_loss : keeps.

(** ** Running a method by hand *)

Ltac run_step :=
  unfold mbind, M_bind, mret, M_ret, request, gets, modify, raise, try_except;
  cbn [fst snd exchange_calls set_exchange_calls config trade_history
       set_trade_history].

(** ** The gate of [place_order] *)

(** C6. A call to [place_order] made while [trading_enabled] is false returns
    at once the result that says so, [{"status": "error", "message":
    "Trading is disabled"}]: it issues no request on the exchange and leaves
    [trade_history], [failed_trades], [profit_locks] and [total_profit_locks],
    indeed the whole executor, as they were. *)
Theorem place_order_disabled (x : Exchange) (symbol side k1 k2 : string)
    (s : Executor) :
  trading_enabled s = false ->
  let (r, s') := place_order x symbol side k1 k2 s in
  r = Returns (ResError "Trading is disabled") /\
  exchange_calls s' = exchange_calls s /\
  trade_history s' = trade_history s /\
  failed_trades s' = failed_trades s /\
  profit_locks s' = profit_locks s /\
  total_profit_locks s' = total_profit_locks s /\
  s' = s.
Proof.
  intros Hoff. unfold place_order. run_step. rewrite Hoff. cbn.
  repeat split; reflexivity.
Qed.

Lemma place_order_disabled_witness :
  let s := set_trading_enabled false (init "account1" account1) in
  place_order (sample_exchange 1000 [long_btc] true (fun _ => true))
    "BTCUSDT" "buy" "limit" "market" s
  = (Returns (ResError "Trading is disabled"), s).
Proof.
  intros s.
  pose proof (place_order_disabled
                (sample_exchange 1000 [long_btc] true (fun _ => true))
                "BTCUSDT" "buy" "limit" "market" s eq_refl) as H.
  destruct (place_order _ _ _ _ _ s) as [r s'].
  destruct H as (-> & _ & _ & _ & _ & _ & ->). reflexivity.
Defined.

(** ** The bracket prices of [place_order] *)

(** C7. When [place_order] reaches its bracket prices with the entry price
    [P], a buy (long) order gets [tp_price = P * (1 + initial_tp_percentage)]
    and [sl_price = P * (1 - initial_sl_percentage)], a sell (short) order
    gets [tp_price = P * (1 - initial_tp_percentage)] and
    [sl_price = P * (1 + initial_sl_percentage)]; these are the prices the
    exchange is asked to round for the order, and the prices of the trade
    record of a placement that succeeds. *)
Theorem bracket_prices (x : Exchange) (symbol side : string)
    (size P : float) (s : Executor) :
  let c := config s in
  let tp := tp_price c side P in
  let sl := sl_price c side P in
  (lower side = "buy" ->
   tp = (P * (1 + initial_tp_percentage c))%float /\
   sl = (P * (1 - initial_sl_percentage c))%float) /\
  (lower side = "sell" ->
   tp = (P * (1 - initial_tp_percentage c))%float /\
   sl = (P * (1 + initial_sl_percentage c))%float) /\
  (forall o s',
     place_order_bracket x symbol side size P s = (Returns (ResSuccess o), s') ->
     exists tp_str sl_str now,
       exchange_calls s' =
         exchange_calls s ++
           [PriceToPrecision symbol tp; PriceToPrecision symbol sl;
            CreateOrder (entry_order symbol side size tp_str sl_str)] /\
       trade_history s' =
         trade_history s ++ [mkTradeRecord now symbol side size P tp sl o]).
Proof.
  intros c tp sl. split; [|split].
  - intros Hb. unfold tp, sl, tp_price, sl_price. rewrite Hb. split; reflexivity.
  - intros Hs. unfold tp, sl, tp_price, sl_price. rewrite Hs. split; reflexivity.
  - intros o s'. unfold place_order_bracket, _log_trade. run_step.
    fold c. fold tp. fold sl.
    destruct (x_price_to_precision x (exchange_calls s) symbol tp)
      as [tp_str|e]; [|discriminate].
    destruct (x_price_to_precision x _ symbol sl) as [sl_str|e]; [|discriminate].
    destruct (x_create_order x _ _) as [o'|e]; [|discriminate].
    intros H. injection H as <- <-.
    eexists tp_str, sl_str, _. cbn. rewrite <- !app_assoc. split; reflexivity.
Qed.

Lemma bracket_prices_witness :
  let x := sample_exchange 1000 [] true (fun _ => true) in
  let s := init "account1" account1 in
  (tp_price account1 "BUY" 100 = (100 * (1 + 0.3))%float /\
   sl_price account1 "BUY" 100 = (100 * (1 - 0.05))%float) /\
  (tp_price account1 "Sell" 100 = (100 * (1 - 0.3))%float /\
   sl_price account1 "Sell" 100 = (100 * (1 + 0.05))%float) /\
  exists tp_str sl_str now,
    exchange_calls (place_order_bracket x "BTCUSDT" "BUY" 1 100 s).2 =
      [PriceToPrecision "BTCUSDT" 130; PriceToPrecision "BTCUSDT" 95;
       CreateOrder (entry_order "BTCUSDT" "BUY" 1 tp_str sl_str)] /\
    trade_history (place_order_bracket x "BTCUSDT" "BUY" 1 100 s).2 =
      [mkTradeRecord now "BTCUSDT" "BUY" 1 100 130 95 "order-1"].
Proof.
  intros x s.
  destruct (bracket_prices x "BTCUSDT" "BUY" 1 100 s) as (Hbuy & _ & Hrun).
  destruct (bracket_prices x "BTCUSDT" "Sell" 1 100 s) as (_ & Hsell & _).
  split; [exact (Hbuy eq_refl)|]. split; [exact (Hsell eq_refl)|].
  destruct (Hrun "order-1" (place_order_bracket x "BTCUSDT" "BUY" 1 100 s).2)
    as (tp_str & sl_str & now & Hc & Ht); [vm_compute; reflexivity|].
  exists tp_str, sl_str, now. split; [exact Hc | exact Ht].
Defined.

(** ** The trailing stop *)

(** C4. [update_stop_loss] on a position computes the new stop as
    [markPrice * 0.99] when the position is long (side buy) and as
    [markPrice * 1.001] when it is short (side sell); it never raises, and,
    the stop once rounded, the order it submits is a stop order on the
    position's symbol, on the opposite side, for the absolute size of the
    position, with the new stop as trigger price, reduce-only, triggered by
    the mark price. *)
Theorem trailing_stop_order (x : Exchange) (p : Position) (s : Executor) :
  (pos_side p = "buy" -> new_sl p = (markPrice p * 0.99)%float) /\
  (pos_side p = "sell" -> new_sl p = (markPrice p * 1.001)%float) /\
  (update_stop_loss x p s).1 = Returns tt /\
  (forall price,
     x_price_to_precision x (exchange_calls s) (pos_symbol p) (new_sl p)
       = Returns price ->
     exists o,
       exchange_calls (update_stop_loss x p s).2 =
         exchange_calls s ++
           [PriceToPrecision (pos_symbol p) (new_sl p); CreateOrder o] /\
       ord_symbol o = pos_symbol p /\
       ord_type o = "stop" /\
       (pos_side p = "buy" -> ord_side o = "sell") /\
       (pos_side p = "sell" -> ord_side o = "buy") /\
       ord_amount o = PrimFloat.abs (contracts p) /\
       ord_price o = Some price /\
       ord_params o = [("triggerPrice", VFloat (new_sl p));
                       ("reduceOnly", VBool true);
                       ("triggerBy", VStr "MarkPrice")]).
Proof.
  split; [|split; [|split]].
  - intros Hb. unfold new_sl. rewrite Hb. reflexivity.
  - intros Hs. unfold new_sl. rewrite Hs. reflexivity.
  - unfold update_stop_loss. run_step.
    destruct (x_price_to_precision x _ _ _) as [price|e]; [|reflexivity].
    destruct (x_create_order x _ _); reflexivity.
  - intros price Hprice. exists (stop_order p price).
    split; [|repeat split].
    + unfold update_stop_loss. run_step. rewrite Hprice.
      destruct (x_create_order x _ _); cbn; rewrite <- app_assoc; reflexivity.
    + intros Hb. cbn. unfold closing_side. rewrite Hb. reflexivity.
    + intros Hs. cbn. unfold closing_side. rewrite Hs. reflexivity.
Qed.

Lemma trailing_stop_order_witness :
  let x := sample_exchange 1000 [long_btc; short_eth] true (fun _ => true) in
  let s := init "account1" account1 in
  new_sl long_btc = (103 * 0.99)%float /\
  new_sl short_eth = (90 * 1.001)%float /\
  exists o,
    exchange_calls (update_stop_loss x short_eth s).2 =
      [PriceToPrecision "ETHUSDT" (90 * 1.001)%float; CreateOrder o] /\
    ord_type o = "stop" /\ ord_side o = "buy" /\ ord_amount o = 2%float.
Proof.
  intros x s.
  destruct (trailing_stop_order x long_btc s) as (Hlong & _ & _ & _).
  destruct (trailing_stop_order x short_eth s) as (_ & Hshort & _ & Hord).
  split; [exact (Hlong eq_refl)|]. split; [exact (Hshort eq_refl)|].
  destruct (Hord "price" eq_refl) as (o & Hc & _ & Ht & _ & Hside & Ha & _).
  exists o. split; [exact Hc|]. split; [exact Ht|].
  split; [exact (Hside eq_refl) | exact Ha].
Defined.

(** ** The size multiplier of [place_order] *)

(** C8. Past the gate, [place_order] probes the positions of the symbol and
    sizes the order with [position_multiplier] of the position found, the
    first fetched position whose absolute size is above 0.00001.  The
    multiplier is 2 exactly when such a position is found and its side is
    opposite to the lower-cased requested side (buy against sell, or sell
    against buy), and 1 otherwise; a long position and a sell signal give 2,
    a long position and a buy signal give 1. *)
Theorem size_multiplier (x : Exchange) (symbol side k1 k2 : string)
    (s : Executor) :
  (trading_enabled s = true ->
   place_order x symbol side k1 k2 s =
     try_except
       (check_existing_position x symbol ≫= fun existing_position =>
        place_order_sized x symbol side
          (position_multiplier existing_position side))
       (fun e => mret (ResError e)) s) /\
  (forall positions,
     x_fetch_positions x (exchange_calls s) (Some [symbol]) = Returns positions ->
     exists found,
       (check_existing_position x symbol s).1 = Returns found /\
       (forall p, found = Some p <->
          exists before after,
            positions = before ++ p :: after /\
            PrimFloat.ltb 0.00001 (PrimFloat.abs (contracts p)) = true /\
            Forall (fun q => PrimFloat.ltb 0.00001 (PrimFloat.abs (contracts q))
                             = false) before)) /\
  (forall found,
     (position_multiplier found side = 2%Z <->
      exists p, found = Some p /\
        ((pos_side p = "buy" /\ lower side = "sell") \/
         (pos_side p = "sell" /\ lower side = "buy"))) /\
     (position_multiplier found side = 2%Z \/
      position_multiplier found side = 1%Z)) /\
  (forall p, pos_side p = "buy" ->
     (lower side = "sell" -> position_multiplier (Some p) side = 2%Z) /\
     (lower side = "buy" -> position_multiplier (Some p) side = 1%Z)).
Proof.
  split; [|split; [|split]].
  - intros Hon. unfold place_order, try_except, mbind, M_bind, gets.
    rewrite Hon. reflexivity.
  - intros positions Hfetch. eexists. split.
    + unfold check_existing_position. run_step. rewrite Hfetch. reflexivity.
    + intros p. fold dust. change (PrimFloat.abs (contracts p)) with (abs_contracts p).
      clear Hfetch. induction positions as [|q positions IH]; cbn [List.find].
      * split; [discriminate|]. intros (before & after & E & _).
        destruct before; discriminate.
      * destruct (PrimFloat.ltb dust (abs_contracts q)) eqn:Hq.
        -- split.
           ++ intros [= <-]. exists [], positions. repeat split; auto.
           ++ intros (before & after & E & Hp & Hall).
              destruct before as [|b before]; cbn in E.
              ** injection E as -> _. reflexivity.
              ** injection E as -> _. apply Forall_cons in Hall as [Hb _].
                 unfold abs_contracts in Hq. congruence.
        -- rewrite IH. split.
           ++ intros (before & after & -> & Hp & Hall).
              exists (q :: before), after. repeat split; auto.
           ++ intros (before & after & E & Hp & Hall).
              destruct before as [|b before]; cbn in E.
              ** injection E as -> _. congruence.
              ** injection E as -> ->. apply Forall_cons in Hall as [_ Hall].
                 exists before, after. repeat split; auto.
  - intros found. unfold position_multiplier, is_opposite_side. split.
    + destruct found as [p|]; [|split; [discriminate | intros (p & E & _); discriminate]].
      destruct (String.eqb_spec (pos_side p) "buy") as [Hb|Hb],
               (String.eqb_spec (pos_side p) "sell") as [Hs|Hs],
               (String.eqb_spec (lower side) "sell") as [Ls|Ls],
               (String.eqb_spec (lower side) "buy") as [Lb|Lb];
        cbn; (split; [first [ discriminate | intros _; exists p; tauto ]
                     | first [ reflexivity
                             | intros (p' & [= <-] & [[? ?]|[? ?]]); congruence ]]).
    + destruct found as [p|]; [|right; reflexivity].
      destruct (_ || _); [left | right]; reflexivity.
  - intros p Hb. unfold position_multiplier, is_opposite_side. rewrite Hb.
    split; intros ->; reflexivity.
Qed.

Lemma size_multiplier_witness :
  let x := sample_exchange 1000 [dust_sol; long_btc] true (fun _ => true) in
  let s := init "account1" account1 in
  (exists found,
     (check_existing_position x "BTCUSDT" s).1 = Returns found /\
     found = Some long_btc) /\
  position_multiplier (Some long_btc) "SELL" = 2%Z /\
  position_multiplier (Some long_btc) "Buy" = 1%Z /\
  place_order x "BTCUSDT" "SELL" "limit" "market" s =
    try_except
      (check_existing_position x "BTCUSDT" ≫= fun existing_position =>
       place_order_sized x "BTCUSDT" "SELL"
         (position_multiplier existing_position "SELL"))
      (fun e => mret (ResError e)) s.
Proof.
  intros x s.
  destruct (size_multiplier x "BTCUSDT" "SELL" "limit" "market" s)
    as (Hgate & Hprobe & _ & Hsell).
  destruct (size_multiplier x "BTCUSDT" "Buy" "limit" "market" s)
    as (_ & _ & _ & Hbuy).
  split; [|split; [|split]].
  - destruct (Hprobe [dust_sol; long_btc] eq_refl) as (found & Hrun & Hfound).
    exists found. split; [exact Hrun|]. apply Hfound.
    exists [dust_sol], []. split; [reflexivity|]. split; [reflexivity|].
    constructor; [reflexivity | constructor].
  - exact (proj1 (Hsell long_btc eq_refl) eq_refl).
  - exact (proj2 (Hbuy long_btc eq_refl) eq_refl).
  - exact (Hgate eq_refl).
Defined.

(** ** What [place_order] writes *)

(** The attributes that [place_order] leaves alone, the breaker apart. *)
Lemma exchange_only_fields s s' :
  exchange_only s s' ->
  account_id s' = account_id s /\ config s' = config s /\
  monitoring_active s' = monitoring_active s /\
  trade_history s' = trade_history s /\ failed_trades s' = failed_trades s /\
  closed_trades s' = closed_trades s /\ profit_locks s' = profit_locks s /\
  total_profit_locks s' = total_profit_locks s /\
  monitor_threads s' = monitor_threads s.
Proof.
  intros [B _]. unfold books in B. injection B as -> -> -> -> -> -> -> -> ->.
  repeat split.
Qed.

(** [place_order_bracket] either submits the order and appends one trade
    record, or raises and appends none. *)
Lemma place_order_bracket_spec x symbol side size P s :
  wp (place_order_bracket x symbol side size P) s (fun r s' =>
    exchange_only s (set_trade_history (trade_history s) s') /\
    match r with
    | Returns (ResSuccess o) =>
        exists rec, trade_history s' = trade_history s ++ [rec] /\
                    tr_symbol rec = symbol /\ tr_side rec = side /\
                    tr_size rec = size /\ tr_entry_price rec = P /\
                    tr_order rec = o /\
                    exists tp sl,
                      last (exchange_calls s') =
                        Some (CreateOrder (entry_order symbol side size tp sl))
    | Returns (ResError _) => False
    | Raises _ => trade_history s' = trade_history s
    end).
Proof.
  unfold wp, place_order_bracket, _log_trade, exchange_only. run_step.
  destruct s as [id c te ma th ft ct pl tpl calls mt]. cbn.
  destruct (x_price_to_precision x calls symbol _) as [tp|e]; cbn;
    [|split; [split; [reflexivity | eexists; reflexivity] | reflexivity]].
  destruct (x_price_to_precision x _ symbol _) as [sl|e]; cbn;
    [|split; [split; [reflexivity | eexists; rewrite <- app_assoc; reflexivity]
             | reflexivity]].
  destruct (x_create_order x _ _) as [o|e]; cbn;
    (split; [split; [reflexivity | eexists; rewrite <- !app_assoc; reflexivity]|]);
    [|reflexivity].
  eexists. split; [reflexivity|]. repeat (split; [reflexivity|]).
  exists tp, sl. apply last_snoc.
Qed.

Lemma exchange_only_same_history s s' :
  exchange_only s s' -> exchange_only s (set_trade_history (trade_history s) s').
Proof.
  intros [B C]. split; [|exact C].
  destruct s, s'. unfold books in *. cbn in *. congruence.
Qed.

Lemma exchange_only_then_history s s1 s' :
  exchange_only s s1 ->
  exchange_only s1 (set_trade_history (trade_history s1) s') ->
  exchange_only s (set_trade_history (trade_history s) s').
Proof.
  intros [B [l C]] [B' [l' C']]. split.
  - destruct s, s1, s'. unfold books in *. cbn in *. congruence.
  - exists (l ++ l'). cbn in *. rewrite C', C. symmetry. apply app_assoc.
Qed.

(** [place_order] never raises; it writes [trade_history] only, one record
    when it succeeds and none when it fails. *)
Lemma place_order_spec x symbol side k1 k2 s :
  wp (place_order x symbol side k1 k2) s (fun r s' =>
    exchange_only s (set_trade_history (trade_history s) s') /\
    ((exists o rec, r = Returns (ResSuccess o) /\
                    trade_history s' = trade_history s ++ [rec] /\
                    tr_symbol rec = symbol /\ tr_side rec = side /\
                    tr_order rec = o) \/
     (exists msg, r = Returns (ResError msg) /\
                  trade_history s' = trade_history s))).
Proof.
  assert (Hfail : forall e s1, exchange_only s s1 ->
            wp (mret (ResError e) : M OrderResult) s1 (fun r s' =>
              exchange_only s (set_trade_history (trade_history s) s') /\
              ((exists o rec, r = Returns (ResSuccess o) /\
                    trade_history s' = trade_history s ++ [rec] /\
                    tr_symbol rec = symbol /\ tr_side rec = side /\
                    tr_order rec = o) \/
               (exists msg, r = Returns (ResError msg) /\
                    trade_history s' = trade_history s)))).
  { intros e s1 H1. apply wp_ret. split; [apply exchange_only_same_history, H1|].
    right. exists e. split; [reflexivity|].
    apply exchange_only_fields in H1. tauto. }
  unfold place_order. apply wp_try_except, wp_bind, wp_gets.
  destruct (trading_enabled s); cbn [negb].
  2:{ apply wp_ret. split; [apply exchange_only_same_history, exchange_only_refl|].
      right. eexists. split; reflexivity. }
  apply wp_bind. eapply wp_mono; [apply keeps_check_existing_position|].
  intros [found|e] s1 H1; [|apply Hfail, H1].
  unfold place_order_sized. apply wp_bind.
  eapply wp_mono; [apply keeps_set_leverage|]. cbn beta.
  intros [[]|e] s2 H2; pose proof (exchange_only_trans _ _ _ H1 H2) as H12;
    [|apply Hfail, H12].
  apply wp_bind. eapply wp_mono; [apply keeps_calculate_position_size|]. cbn beta.
  intros [[size P]|e] s3 H3; pose proof (exchange_only_trans _ _ _ H12 H3) as H13;
    [|apply Hfail, H13].
  eapply wp_mono; [apply place_order_bracket_spec|]. cbn beta.
  intros r s4 [H4 Hr].
  pose proof (exchange_only_fields _ _ H13) as (_ & _ & _ & Hth & _).
  destruct r as [[msg|o]|e].
  - destruct Hr.
  - split; [eapply exchange_only_then_history; eassumption|].
    left. destruct Hr as (rec & Hrec & Hsym & Hside & _ & _ & Ho & _).
    exists o, rec. rewrite <- Hth. auto.
  - apply wp_ret. split; [eapply exchange_only_then_history; eassumption|].
    right. exists e. split; [reflexivity | congruence].
Qed.

(** C1, a failing placement.  The exchange rejects the order: the call passed
    the gate and failed at submission, the result is an error, and no entry
    reached [failed_trades], nor [trade_history]. *)
Lemma place_order_failure_unrecorded :
  let x := sample_exchange 1000 [] false (fun _ => true) in
  let s := init "account1" account1 in
  let (r, s') := place_order x "BTCUSDT" "buy" "limit" "market" s in
  trading_enabled s = true /\
  r = Returns (ResError "order rejected") /\
  last (exchange_calls s') =
    Some (CreateOrder (entry_order "BTCUSDT" "buy" 0.5 "price" "price")) /\
  failed_trades s' = failed_trades s /\
  trade_history s' = trade_history s /\
  ~ (exists rec, failed_trades s' = failed_trades s ++ [rec]).
Proof.
  vm_compute. repeat (split; [reflexivity|]).
  intros [rec H]. discriminate H.
Qed.

(** C1, as the code has it.  A call to [place_order] that passes the gate
    appends exactly one trade record to [trade_history] when the placement
    succeeds, the record of that order; when a step fails, the result is
    [{"status": "error", "message": ...}] and [trade_history] is unchanged.
    [failed_trades] is unchanged in both cases. *)
Theorem place_order_records (x : Exchange) (symbol side k1 k2 : string)
    (s : Executor) :
  trading_enabled s = true ->
  let (r, s') := place_order x symbol side k1 k2 s in
  failed_trades s' = failed_trades s /\
  ((exists o rec,
      r = Returns (ResSuccess o) /\
      trade_history s' = trade_history s ++ [rec] /\
      tr_symbol rec = symbol /\ tr_side rec = side /\ tr_order rec = o) \/
   (exists msg,
      r = Returns (ResError msg) /\ status (ResError msg) = "error" /\
      trade_history s' = trade_history s)).
Proof.
  intros _. pose proof (place_order_spec x symbol side k1 k2 s) as H.
  unfold wp in H. destruct (place_order x symbol side k1 k2 s) as [r s'].
  cbn [fst snd] in H. destruct H as [Hx Hr].
  apply exchange_only_fields in Hx. cbn in Hx.
  split; [tauto|].
  destruct Hr as [Hok | (msg & -> & Hth)]; [left; exact Hok | right].
  exists msg. auto.
Qed.

Lemma place_order_records_witness :
  let x := sample_exchange 1000 [long_btc] true (fun _ => true) in
  let s := init "account1" account1 in
  let s' := (place_order x "BTCUSDT" "SELL" "limit" "market" s).2 in
  failed_trades s' = [] /\ length (trade_history s') = 1.
Proof.
  intros x s s'.
  pose proof (place_order_records x "BTCUSDT" "SELL" "limit" "market" s eq_refl)
    as H.
  fold x s in H. unfold s'.
  destruct (place_order x "BTCUSDT" "SELL" "limit" "market" s) as [r t] eqn:E.
  destruct H as [Hf Hr]. split; [exact Hf|].
  destruct Hr as [(o & rec & _ & Hth & _) | (msg & -> & _)].
  - cbn [snd]. rewrite Hth. reflexivity.
  - vm_compute in E. discriminate E.
Defined.

(** ** The balance circuit breaker *)

Lemma close_position_run x p s :
  close_position x p s =
    if PrimFloat.ltb 0 (abs_contracts p)
    then (match x_create_market_order x (exchange_calls s) (flatten_order p) with
          | Returns _ => Returns tt
          | Raises e => Raises e
          end,
          set_exchange_calls
            (exchange_calls s ++ [CreateMarketOrder (flatten_order p)]) s)
    else (Returns tt, s).
Proof.
  unfold close_position. destruct (PrimFloat.ltb 0 (abs_contracts p)); [|reflexivity].
  run_step. destruct (x_create_market_order x _ _); reflexivity.
Qed.

(** The loop of [close_all_positions]: it submits the orders of the positions
    of nonzero size, in order, and stops at the first one that raises. *)
Lemma close_loop_spec x positions : forall s,
  let (r, s') := for_each positions (close_position x) s in
  exists attempted rest,
    List.filter (fun p => PrimFloat.ltb 0 (abs_contracts p)) positions
      = attempted ++ rest /\
    s' = set_exchange_calls
           (exchange_calls s
              ++ map (fun p => CreateMarketOrder (flatten_order p)) attempted) s /\
    ((r = Returns tt /\ rest = []) \/
     (exists before p e,
        r = Raises e /\ attempted = before ++ [p] /\
        x_create_market_order x
          (exchange_calls s
             ++ map (fun p => CreateMarketOrder (flatten_order p)) before)
          (flatten_order p) = Raises e)) /\
    (forall before p after,
       attempted = before ++ p :: after -> after <> [] ->
       exists o,
         x_create_market_order x
           (exchange_calls s
              ++ map (fun p => CreateMarketOrder (flatten_order p)) before)
           (flatten_order p) = Returns o).
Proof.
  induction positions as [|p positions IH]; intros s.
  - exists [], []. cbn. rewrite app_nil_r.
    split; [reflexivity|]. split; [destruct s; reflexivity|].
    split; [left; split; reflexivity|].
    intros before q after E. destruct before; discriminate E.
  - cbn [for_each List.filter]. unfold mbind, M_bind.
    rewrite close_position_run.
    destruct (PrimFloat.ltb 0 (abs_contracts p)) eqn:Hp.
    + destruct (x_create_market_order x (exchange_calls s) (flatten_order p))
        as [o|e] eqn:Ho.
      * specialize (IH (set_exchange_calls
                          (exchange_calls s ++ [CreateMarketOrder (flatten_order p)]) s)).
        destruct (for_each positions (close_position x) _) as [r s'].
        destruct IH as (attempted & rest & Hsplit & -> & Hr & Hacc).
        exists (p :: attempted), rest. rewrite Hsplit. split; [reflexivity|].
        split; [destruct s; cbn; rewrite <- app_assoc; reflexivity|]. split.
        -- destruct Hr as [Hr | (before & q & e & -> & -> & Hq)]; [left; exact Hr|].
           right. exists (p :: before), q, e. split; [reflexivity|].
           split; [reflexivity|]. cbn in Hq |- *. rewrite <- app_assoc in Hq.
           exact Hq.
        -- intros before q after E Hafter. destruct before as [|b before].
           ++ cbn in E. injection E as <- _. exists o. cbn. rewrite app_nil_r.
              exact Ho.
           ++ cbn in E. injection E as <- E.
              destruct (Hacc before q after E Hafter) as [o' Ho'].
              exists o'. cbn in Ho' |- *. rewrite <- app_assoc in Ho'. exact Ho'.
      * exists [p], (List.filter (fun p => PrimFloat.ltb 0 (abs_contracts p)) positions).
        split; [reflexivity|]. split; [reflexivity|]. split.
        -- right. exists [], p, e. cbn. rewrite app_nil_r. auto.
        -- intros before q after E Hafter. destruct before as [|b before].
           ++ cbn in E. injection E as _ <-. contradiction.
           ++ cbn in E. injection E as _ E. destruct before; discriminate E.
    + specialize (IH s).
      destruct (for_each positions (close_position x) s) as [r s']. exact IH.
Qed.

(** [close_all_positions] never raises.  It fetches the positions and, when
    that succeeds, submits one market order per position of nonzero size, in
    order, up to and including the first order that raises. *)
Lemma close_all_positions_spec x s :
  let (r, s') := close_all_positions x s in
  r = Returns tt /\
  exists attempted,
    s' = set_exchange_calls
           (exchange_calls s ++ FetchPositions None
              :: map (fun p => CreateMarketOrder (flatten_order p)) attempted) s /\
    match x_fetch_positions x (exchange_calls s) None with
    | Raises _ => attempted = []
    | Returns positions =>
        exists rest,
          List.filter (fun p => PrimFloat.ltb 0 (abs_contracts p)) positions
            = attempted ++ rest /\
          (rest = [] \/
           exists before p e,
             attempted = before ++ [p] /\
             x_create_market_order x
               (exchange_calls s ++ FetchPositions None
                  :: map (fun p => CreateMarketOrder (flatten_order p)) before)
               (flatten_order p) = Raises e) /\
          (forall before p after,
             attempted = before ++ p :: after -> after <> [] ->
             exists o,
               x_create_market_order x
                 (exchange_calls s ++ FetchPositions None
                    :: map (fun p => CreateMarketOrder (flatten_order p)) before)
                 (flatten_order p) = Returns o)
    end.
Proof.
  unfold close_all_positions. run_step.
  destruct (x_fetch_positions x (exchange_calls s) None) as [positions|e].
  - pose proof (close_loop_spec x positions
                  (set_exchange_calls (exchange_calls s ++ [FetchPositions None]) s))
      as H.
    destruct (for_each positions (close_position x) _) as [r s'].
    destruct H as (attempted & rest & Hsplit & -> & Hr & Hacc).
    assert (Hs : set_exchange_calls
                   (exchange_calls
                      (set_exchange_calls (exchange_calls s ++ [FetchPositions None]) s)
                    ++ map (fun p => CreateMarketOrder (flatten_order p)) attempted)
                   (set_exchange_calls (exchange_calls s ++ [FetchPositions None]) s)
                 = set_exchange_calls
                     (exchange_calls s ++ FetchPositions None
                        :: map (fun p => CreateMarketOrder (flatten_order p)) attempted) s).
    { destruct s; cbn. rewrite <- app_assoc. reflexivity. }
    assert (Hrest : exists rest0,
              List.filter (fun p => PrimFloat.ltb 0 (abs_contracts p)) positions
                = attempted ++ rest0 /\
              (rest0 = [] \/
               exists before p e,
                 attempted = before ++ [p] /\
                 x_create_market_order x
                   (exchange_calls s ++ FetchPositions None
                      :: map (fun p => CreateMarketOrder (flatten_order p)) before)
                   (flatten_order p) = Raises e) /\
              (forall before p after,
                 attempted = before ++ p :: after -> after <> [] ->
                 exists o,
                   x_create_market_order x
                     (exchange_calls s ++ FetchPositions None
                        :: map (fun p => CreateMarketOrder (flatten_order p)) before)
                     (flatten_order p) = Returns o)).
    { exists rest. split; [exact Hsplit|]. split.
      - destruct Hr as [[_ ->] | (before & p & e & _ & -> & Hp)];
          [left; reflexivity|].
        right. exists before, p, e. split; [reflexivity|].
        cbn in Hp. rewrite <- app_assoc in Hp. exact Hp.
      - intros before p after E Hafter.
        destruct (Hacc before p after E Hafter) as [o Ho]. exists o.
        cbn in Ho. rewrite <- app_assoc in Ho. exact Ho. }
    destruct r as [[]|e]; (split; [reflexivity|]); exists attempted;
      (split; [exact Hs | exact Hrest]).
  - split; [reflexivity|]. exists []. split; reflexivity.
Qed.

Lemma get_wallet_balance_below x s b :
  x_fetch_balance x (exchange_calls s) = Returns b ->
  PrimFloat.ltb b (balance_threshold (config s)) = true ->
  get_wallet_balance x s =
    (Returns b,
     set_trading_enabled false
       (close_all_positions x
          (set_exchange_calls (exchange_calls s ++ [FetchBalance]) s)).2).
Proof.
  intros Hb Hlt. unfold get_wallet_balance. run_step. rewrite Hb.
  change (config (set_exchange_calls (exchange_calls s ++ [FetchBalance]) s))
    with (config s). rewrite Hlt.
  pose proof (close_all_positions_spec x
                (set_exchange_calls (exchange_calls s ++ [FetchBalance]) s)) as H.
  destruct (close_all_positions x _) as [r s']. destruct H as [-> _]. reflexivity.
Qed.

Lemma get_wallet_balance_above x s b :
  x_fetch_balance x (exchange_calls s) = Returns b ->
  PrimFloat.ltb b (balance_threshold (config s)) = false ->
  get_wallet_balance x s =
    (Returns b, set_exchange_calls (exchange_calls s ++ [FetchBalance]) s).
Proof.
  intros Hb Hlt. unfold get_wallet_balance. run_step. rewrite Hb.
  change (config (set_exchange_calls (exchange_calls s ++ [FetchBalance]) s))
    with (config s). rewrite Hlt. reflexivity.
Qed.

(** C5, a flattening order that fails.  The balance is below the threshold
    and two positions are open; the exchange rejects the first flattening
    order and would accept the next.  Trading is disabled, but no order was
    submitted for the second position. *)
Lemma breaker_stops_at_first_failure :
  let x := sample_exchange 50 [long_btc; short_eth] true
             (fun n => negb (Nat.eqb n 0)) in
  let s := init "account1" account1 in
  let (r, s') := get_wallet_balance x s in
  PrimFloat.ltb 50 (balance_threshold (config s)) = true /\
  PrimFloat.ltb 0 (PrimFloat.abs (contracts short_eth)) = true /\
  r = Returns 50%float /\
  trading_enabled s' = false /\
  exchange_calls s' =
    [FetchBalance; FetchPositions None; CreateMarketOrder (flatten_order long_btc)] /\
  ~ In (CreateMarketOrder (flatten_order short_eth)) (exchange_calls s').
Proof.
  vm_compute. repeat (split; [reflexivity|]).
  intros [H|[H|[H|[]]]]; discriminate H.
Qed.

(** C5, as the code has it.  When [get_wallet_balance] fetches a balance
    strictly below [balance_threshold], it returns that balance and
    [trading_enabled] is false afterwards, whatever the exchange answers to
    the flattening.  Before that it fetches the positions and submits, for
    the positions of nonzero size in the order fetched, a market order on
    the opposite side for the absolute size with [reduce_only] set: for all
    of them when no submission raises, up to and including the first
    submission that raises otherwise, and for none when fetching the
    positions raises.  So every submission but the last one made was
    accepted, and positions are left without an order only when the last
    submission made raised. *)
Theorem breaker_flattens_and_disables (x : Exchange) (s : Executor) (b : float) :
  x_fetch_balance x (exchange_calls s) = Returns b ->
  PrimFloat.ltb b (balance_threshold (config s)) = true ->
  let (r, s') := get_wallet_balance x s in
  r = Returns b /\
  trading_enabled s' = false /\
  (forall p,
     ord_symbol (flatten_order p) = pos_symbol p /\
     ord_type (flatten_order p) = "market" /\
     (pos_side p = "buy" -> ord_side (flatten_order p) = "sell") /\
     (pos_side p = "sell" -> ord_side (flatten_order p) = "buy") /\
     ord_amount (flatten_order p) = PrimFloat.abs (contracts p) /\
     ord_params (flatten_order p) = [("reduce_only", VBool true)]) /\
  exists attempted,
    exchange_calls s' =
      exchange_calls s ++ FetchBalance :: FetchPositions None
        :: map (fun p => CreateMarketOrder (flatten_order p)) attempted /\
    match x_fetch_positions x (exchange_calls s ++ [FetchBalance]) None with
    | Raises _ => attempted = []
    | Returns positions =>
        exists rest,
          List.filter (fun p => PrimFloat.ltb 0 (PrimFloat.abs (contracts p)))
            positions = attempted ++ rest /\
          (rest = [] \/
           exists before p e,
             attempted = before ++ [p] /\
             x_create_market_order x
               (exchange_calls s ++ FetchBalance :: FetchPositions None
                  :: map (fun p => CreateMarketOrder (flatten_order p)) before)
               (flatten_order p) = Raises e) /\
          (forall before p after,
             attempted = before ++ p :: after -> after <> [] ->
             exists o,
               x_create_market_order x
                 (exchange_calls s ++ FetchBalance :: FetchPositions None
                    :: map (fun p => CreateMarketOrder (flatten_order p)) before)
                 (flatten_order p) = Returns o)
    end.
Proof.
  intros Hb Hlt. rewrite (get_wallet_balance_below x s b Hb Hlt).
  split; [reflexivity|].
  pose proof (close_all_positions_spec x
                (set_exchange_calls (exchange_calls s ++ [FetchBalance]) s)) as H.
  destruct (close_all_positions x _) as [r s']. cbn [snd].
  destruct H as (_ & attempted & -> & Hatt).
  split; [reflexivity|]. split.
  - intros p. unfold flatten_order, closing_side, abs_contracts. cbn.
    repeat split; intros ->; reflexivity.
  - exists attempted. split.
    + cbn. rewrite <- app_assoc. reflexivity.
    + cbn [exchange_calls set_exchange_calls] in Hatt.
      destruct (x_fetch_positions x _ None) as [positions|e]; [|exact Hatt].
      destruct Hatt as (rest & Hsplit & Hrest & Hacc). exists rest.
      split; [exact Hsplit|]. split.
      * destruct Hrest as [->|(before & p & e & -> & Hp)]; [left; reflexivity|].
        right. exists before, p, e. split; [reflexivity|].
        rewrite <- app_assoc in Hp. exact Hp.
      * intros before p after E Hafter.
        destruct (Hacc before p after E Hafter) as [o Ho]. exists o.
        rewrite <- app_assoc in Ho. exact Ho.
Qed.

Lemma breaker_flattens_and_disables_witness :
  let x := sample_exchange 50 [long_btc; dust_sol; short_eth] true (fun _ => true) in
  let y := sample_exchange 50 [long_btc; short_eth] true
             (fun n => negb (Nat.eqb n 0)) in
  let s := init "account1" account1 in
  let s' := (get_wallet_balance x s).2 in
  (trading_enabled s' = false /\
   exchange_calls s' =
     [FetchBalance; FetchPositions None;
      CreateMarketOrder (flatten_order long_btc);
      CreateMarketOrder (flatten_order dust_sol);
      CreateMarketOrder (flatten_order short_eth)]) /\
  exchange_calls (get_wallet_balance y s).2 =
    [FetchBalance; FetchPositions None;
     CreateMarketOrder (flatten_order long_btc)].
Proof.
  intros x y s s'. split.
  - pose proof (breaker_flattens_and_disables x s 50 eq_refl eq_refl) as H.
    unfold s'. destruct (get_wallet_balance x s) as [r t] eqn:E.
    destruct H as (_ & Hoff & _ & attempted & Hcalls & _).
    split; [exact Hoff|]. vm_compute in E. injection E as _ <-. reflexivity.
  - pose proof (breaker_flattens_and_disables y s 50 eq_refl eq_refl) as H.
    destruct (get_wallet_balance y s) as [r t].
    destruct H as (_ & _ & _ & attempted & Hcalls & Hatt).
    cbn [snd]. rewrite Hcalls.
    change (x_fetch_positions y (exchange_calls s ++ [FetchBalance]) None)
      with (Returns [long_btc; short_eth]) in Hatt.
    destruct Hatt as (rest & Hsplit & Hrest & Hacc).
    change (List.filter _ [long_btc; short_eth])
      with [long_btc; short_eth] in Hsplit.
    destruct attempted as [|p1 [|p2 more]].
    + destruct Hrest as [->|(before & p & e & E & _)];
        [discriminate Hsplit | destruct before; discriminate E].
    + injection Hsplit as <- _. reflexivity.
    + injection Hsplit as <- _.
      destruct (Hacc [] long_btc (p2 :: more) eq_refl) as [o Ho]; [discriminate|].
      discriminate Ho.
Defined.

(** ** Sizing with a balance below the threshold *)

(** C2, a balance below the threshold.  The balance is 50 and the threshold
    100: [calculate_position_size] trips the breaker and returns a size all
    the same, and [place_order] goes on to submit the order and to log the
    trade. *)
Lemma sizing_succeeds_below_threshold :
  let x := sample_exchange 50 [] true (fun _ => true) in
  let s := init "account1" account1 in
  PrimFloat.ltb 50 (balance_threshold (config s)) = true /\
  (let (r, s') := calculate_position_size x "BTCUSDT" 1 s in
   r = Returns (0.025%float, 100%float) /\ trading_enabled s' = false) /\
  (let (r, s') := place_order x "BTCUSDT" "buy" "limit" "market" s in
   r = Returns (ResSuccess "order-1") /\
   last (exchange_calls s') =
     Some (CreateOrder (entry_order "BTCUSDT" "buy" 0.025 "price" "price")) /\
   length (trade_history s') = 1 /\
   trading_enabled s' = false).
Proof. vm_compute. repeat split; reflexivity. Qed.

(** C2, as the code has it.  When [calculate_position_size] fetches a balance
    below [balance_threshold], the breaker is tripped, the positions are
    flattened as far as the exchange allows and [trading_enabled] becomes
    false, and the sizing goes on with that balance: it raises no error for
    the balance and, the ticker, the division, the market lookup and the
    rounding succeeding, it returns the size and the price to its caller. *)
Theorem sizing_below_threshold (x : Exchange) (symbol : string)
    (multiply_factor : float) (s : Executor) (b price size : float) :
  x_fetch_balance x (exchange_calls s) = Returns b ->
  PrimFloat.ltb b (balance_threshold (config s)) = true ->
  let s1 := (get_wallet_balance x s).2 in
  let raw := (b * (risk_percentage (config s) / 100)
                * float_of_int (leverage (config s)) / price
                * multiply_factor)%float in
  x_fetch_ticker x (exchange_calls s1) symbol = Returns price ->
  PrimFloat.eqb price 0 = false ->
  x_market x (exchange_calls s1 ++ [FetchTicker symbol]) symbol = Returns tt ->
  x_amount_to_precision x
    (exchange_calls s1 ++ [FetchTicker symbol; Market symbol]) symbol raw
    = Returns size ->
  let (r, s') := calculate_position_size x symbol multiply_factor s in
  r = Returns (size, price) /\
  trading_enabled s' = false /\
  exists flattening,
    exchange_calls s' =
      exchange_calls s ++ FetchBalance :: FetchPositions None :: flattening
        ++ [FetchTicker symbol; Market symbol; AmountToPrecision symbol raw].
Proof.
  intros Hb Hlt s1 raw Hticker Hprice Hmarket Hround.
  pose proof (get_wallet_balance_below x s b Hb Hlt) as Hrun.
  pose proof (close_all_positions_spec x
                (set_exchange_calls (exchange_calls s ++ [FetchBalance]) s)) as Hc.
  destruct (close_all_positions x _) as [rc sc]. cbn [snd] in Hrun.
  destruct Hc as (_ & attempted & -> & _).
  set (flattening := map (fun p => CreateMarketOrder (flatten_order p)) attempted) in *.
  assert (Hrun1 : get_wallet_balance x s =
                    (Returns b,
                     set_trading_enabled false
                       (set_exchange_calls
                          (exchange_calls s ++ FetchBalance :: FetchPositions None
                             :: flattening) s))).
  { rewrite Hrun. destruct s; cbn. rewrite <- app_assoc. reflexivity. }
  assert (Hs1 : s1 = set_trading_enabled false
                       (set_exchange_calls
                          (exchange_calls s ++ FetchBalance :: FetchPositions None
                             :: flattening) s)).
  { unfold s1. rewrite Hrun1. reflexivity. }
  clearbody s1. subst s1. clear Hrun.
  cbn [exchange_calls set_exchange_calls set_trading_enabled] in Hticker, Hmarket, Hround.
  rewrite <- ?app_assoc in Hmarket, Hround. cbn [app] in Hmarket, Hround.
  unfold calculate_position_size.
  unfold mbind, M_bind, mret, M_ret, request, gets, raise, try_except.
  rewrite Hrun1.
  cbn [fst snd exchange_calls set_exchange_calls config set_trading_enabled].
  rewrite Hticker. unfold float_div. rewrite Hprice. fold raw.
  cbn [exchange_calls set_exchange_calls set_trading_enabled].
  rewrite <- ?app_assoc. cbn [app]. rewrite Hmarket, Hround.
  split; [reflexivity|]. split; [reflexivity|].
  exists flattening. reflexivity.
Qed.

Lemma sizing_below_threshold_witness :
  let x := sample_exchange 50 [long_btc] true (fun _ => true) in
  let s := init "account1" account1 in
  let (r, s') := calculate_position_size x "BTCUSDT" 1 s in
  r = Returns (0.025%float, 100%float) /\ trading_enabled s' = false.
Proof.
  intros x s.
  pose proof (sizing_below_threshold x "BTCUSDT" 1 s 50 100 0.025
                eq_refl eq_refl eq_refl eq_refl eq_refl eq_refl) as H.
  destruct (calculate_position_size x "BTCUSDT" 1 s) as [r s'].
  destruct H as (Hr & Hoff & _). split; [exact Hr | exact Hoff].
Defined.

(** ** The profit-lock monitor *)

(** Comparison of floats: swapping the arguments swaps the answer. *)
Lemma SFcompare_antisym a b :
  SFcompare b a = match SFcompare a b with
                  | Some c => Some (CompOpp c)
                  | None => None
                  end.
Proof.
  destruct a as [sa|sa| |sa ma ea], b as [sb|sb| |sb mb eb]; cbn;
    try reflexivity; try (destruct sa; reflexivity); try (destruct sb; reflexivity);
    try (destruct sa, sb; reflexivity).
  destruct sa, sb; try reflexivity.
  - rewrite (Z.compare_antisym eb ea). destruct (eb ?= ea)%Z; cbn; try reflexivity.
    change (PosDef.Pos.compare_cont Eq) with Pos.compare.
    rewrite (Pos.compare_antisym mb ma), ?CompOpp_involutive. reflexivity.
  - rewrite (Z.compare_antisym eb ea). destruct (eb ?= ea)%Z; cbn; try reflexivity.
    change (PosDef.Pos.compare_cont Eq) with Pos.compare.
    rewrite (Pos.compare_antisym mb ma), ?CompOpp_involutive. reflexivity.
Qed.

(** [a < b] excludes [b <= a]: a size above the dust constant is not skipped. *)
Lemma ltb_not_leb (a b : float) :
  PrimFloat.ltb a b = true -> PrimFloat.leb b a = false.
Proof.
  rewrite ltb_spec, leb_spec. unfold SFltb, SFleb.
  rewrite (SFcompare_antisym (Prim2SF a) (Prim2SF b)).
  destruct (SFcompare (Prim2SF a) (Prim2SF b)) as [[]|]; cbn; congruence.
Qed.

Lemma update_stop_loss_returns x p s : (update_stop_loss x p s).1 = Returns tt.
Proof.
  unfold update_stop_loss. run_step.
  destruct (x_price_to_precision x _ _ _) as [price|e]; [|reflexivity].
  destruct (x_create_order x _ _); reflexivity.
Qed.

Lemma record_profit_lock_run x symbol pp s :
  _record_profit_lock x symbol pp s =
    (Returns tt,
     set_total_profit_locks (total_profit_locks s + 1)
       (set_profit_locks
          (lock_append symbol
             (mkProfitLockEvent (strftime x (exchange_calls s)) pp)
             (profit_locks s)) s)).
Proof. reflexivity. Qed.

Lemma lock_append_lookup symbol ev (m : gmap string (list ProfitLockEvent)) :
  lock_append symbol ev m !! symbol = Some (default [] (m !! symbol) ++ [ev]) /\
  forall k, k <> symbol -> lock_append symbol ev m !! k = m !! k.
Proof.
  unfold lock_append. split.
  - rewrite lookup_alter_eq. destruct (m !! symbol) as [l|] eqn:E.
    + rewrite E. reflexivity.
    + rewrite lookup_insert_eq. reflexivity.
  - intros k Hk. rewrite lookup_alter_ne by congruence.
    destruct (m !! symbol); [reflexivity|]. apply lookup_insert_ne. congruence.
Qed.

Lemma lock_position_run x c p s :
  lock_position x c p s =
    (Returns tt,
     let s1 := (update_stop_loss x p s).2 in
     set_total_profit_locks (total_profit_locks s1 + 1)
       (set_profit_locks
          (lock_append (pos_symbol p)
             (mkProfitLockEvent (strftime x (exchange_calls s1))
                (profit_percentage c p))
             (profit_locks s1)) s1)).
Proof.
  unfold lock_position, mbind, M_bind.
  pose proof (update_stop_loss_returns x p s) as H.
  destruct (update_stop_loss x p s) as [r s1]. cbn in H. subst r.
  apply record_profit_lock_run.
Qed.

Lemma monitor_position_run x p s :
  monitor_position x p s =
    if PrimFloat.leb (abs_contracts p) dust then (Returns tt, s)
    else if PrimFloat.eqb (entryPrice p * abs_contracts p) 0
         then (Raises "float division by zero", s)
         else if lock_due (config s) p then lock_position x (config s) p s
              else (Returns tt, s).
Proof.
  unfold monitor_position, lock_due.
  destruct (PrimFloat.leb (abs_contracts p) dust); [reflexivity|].
  unfold mbind, M_bind, gets, float_div.
  destruct (PrimFloat.eqb (entryPrice p * abs_contracts p) 0); [reflexivity|].
  cbn [negb andb]. fold (profit_percentage (config s) p).
  destruct (PrimFloat.leb _ (profit_percentage (config s) p)); reflexivity.
Qed.

Lemma for_each_cons {A} (a : A) (l : list A) (body : A -> M unit) s :
  for_each (a :: l) body s =
    match body a s with
    | (Returns _, s1) => for_each l body s1
    | (Raises e, s1) => (Raises e, s1)
    end.
Proof. reflexivity. Qed.

Lemma lock_position_config x c p s : config (lock_position x c p s).2 = config s.
Proof.
  rewrite lock_position_run. cbn.
  pose proof (keeps_update_stop_loss x p s) as H. unfold wp in H.
  apply exchange_only_fields in H. tauto.
Qed.

(** The [for] loop of [monitor_positions_profit]: it handles the positions in
    order up to the first one whose division raises, and what it does is to
    lock the profit of the handled positions that are due. *)
Lemma monitor_loop_spec x c positions : forall s,
  config s = c ->
  let (r, s') := for_each positions (monitor_position x) s in
  exists handled rest,
    positions = handled ++ rest /\
    Forall (fun p => PrimFloat.leb (abs_contracts p) dust = true \/
                     PrimFloat.eqb (entryPrice p * abs_contracts p) 0 = false)
      handled /\
    ((rest = [] /\ r = Returns tt) \/
     (exists p rest',
        rest = p :: rest' /\
        PrimFloat.leb (abs_contracts p) dust = false /\
        PrimFloat.eqb (entryPrice p * abs_contracts p) 0 = true /\
        r = Raises "float division by zero")) /\
    s' = (for_each (List.filter (lock_due c) handled) (lock_position x c) s).2.
Proof.
  induction positions as [|p positions IH]; intros s Hc.
  - exists [], []. cbn. split; [reflexivity|]. split; [constructor|].
    split; [left; split; reflexivity | reflexivity].
  - rewrite for_each_cons, monitor_position_run, Hc.
    destruct (PrimFloat.leb (abs_contracts p) dust) eqn:Hdust.
    { specialize (IH s Hc).
      destruct (for_each positions (monitor_position x) s) as [r s'].
      destruct IH as (handled & rest & -> & Hall & Hrest & ->).
      exists (p :: handled), rest. split; [reflexivity|].
      split; [constructor; auto|]. split; [exact Hrest|].
      cbn [List.filter]. unfold lock_due at 2. rewrite Hdust. reflexivity. }
    destruct (PrimFloat.eqb (entryPrice p * abs_contracts p) 0) eqn:Hzero.
    { exists [], (p :: positions). split; [reflexivity|]. split; [constructor|].
      split; [|reflexivity]. right. exists p, positions. auto. }
    destruct (lock_due c p) eqn:Hdue.
    + pose proof (lock_position_config x c p s) as Hc1.
      pose proof (lock_position_run x c p s) as Hrun.
      destruct (lock_position x c p s) as [r1 s1] eqn:E1. cbn [snd] in Hc1.
      injection Hrun as -> Hs1. clear Hs1.
      specialize (IH s1 (eq_trans Hc1 Hc)).
      destruct (for_each positions (monitor_position x) s1) as [r s'].
      destruct IH as (handled & rest & -> & Hall & Hrest & ->).
      exists (p :: handled), rest. split; [reflexivity|].
      split; [constructor; auto|]. split; [exact Hrest|].
      cbn [List.filter]. rewrite Hdue, for_each_cons, E1. reflexivity.
    + specialize (IH s Hc).
      destruct (for_each positions (monitor_position x) s) as [r s'].
      destruct IH as (handled & rest & -> & Hall & Hrest & ->).
      exists (p :: handled), rest. split; [reflexivity|].
      split; [constructor; auto|]. split; [exact Hrest|].
      cbn [List.filter]. rewrite Hdue. reflexivity.
Qed.

(** C3, a pass cut short.  The exchange reports two positions above the dust
    constant: the first with entry price zero, the second with a profit
    percentage above the threshold.  The division raises on the first, the
    [except] of the pass catches it, and the second position gets neither a
    stop update nor a profit lock. *)
Lemma monitor_pass_cut_short :
  let x := sample_exchange 1000 [zero_entry_xrp; long_btc] true (fun _ => true) in
  let s := init "account1" account1 in
  let (r, s') := monitor_iteration x s in
  PrimFloat.ltb 0.00001 (PrimFloat.abs (contracts long_btc)) = true /\
  PrimFloat.leb (profit_lock_threshold account1 * 100)
    (unrealizedPnl long_btc
       / (entryPrice long_btc * PrimFloat.abs (contracts long_btc))
       * 100 * float_of_int (leverage account1)) = true /\
  total_profit_locks s' = total_profit_locks s /\
  profit_locks s' = profit_locks s /\
  exchange_calls s' = [FetchPositions None].
Proof. vm_compute. repeat split; reflexivity. Qed.

(** C3, as the code has it.  A pass of the monitor loop whose fetch succeeds
    handles the fetched positions in order, up to the first position above
    the dust constant whose [entryPrice * size] is zero, where the division
    raises and the pass ends; the pass itself never raises.  A handled
    position of absolute size at most 0.00001 is skipped entirely.  For a
    handled position above it, the profit percentage is
    [unrealizedPnl / (entryPrice * size) * 100 * leverage], and the stop
    update followed by the record of the profit lock happen exactly when it
    is at least [profit_lock_threshold * 100].  The record adds one to
    [total_profit_locks] and appends the event, with that percentage, to the
    list of the position's symbol in [profit_locks]. *)
Theorem monitor_pass (x : Exchange) (s : Executor) (positions : list Position) :
  x_fetch_positions x (exchange_calls s) None = Returns positions ->
  let c := config s in
  (forall p,
     profit_percentage c p =
       (unrealizedPnl p / (entryPrice p * PrimFloat.abs (contracts p))
        * 100 * float_of_int (leverage c))%float /\
     (lock_due c p = true <->
      PrimFloat.leb (PrimFloat.abs (contracts p)) 0.00001 = false /\
      PrimFloat.leb (profit_lock_threshold c * 100) (profit_percentage c p) = true) /\
     (PrimFloat.ltb 0.00001 (PrimFloat.abs (contracts p)) = true ->
      PrimFloat.leb (PrimFloat.abs (contracts p)) 0.00001 = false)) /\
  (forall p t,
     PrimFloat.leb (PrimFloat.abs (contracts p)) 0.00001 = true ->
     monitor_position x p t = (Returns tt, t)) /\
  (forall p t,
     let (r, t') := lock_position x c p t in
     let t1 := (update_stop_loss x p t).2 in
     r = Returns tt /\
     exchange_calls t' = exchange_calls t1 /\
     total_profit_locks t' = total_profit_locks t + 1 /\
     profit_locks t' !! pos_symbol p =
       Some (default [] (profit_locks t !! pos_symbol p)
             ++ [mkProfitLockEvent (strftime x (exchange_calls t1))
                   (profit_percentage c p)]) /\
     (forall k, k <> pos_symbol p -> profit_locks t' !! k = profit_locks t !! k)) /\
  (monitor_iteration x s).1 = Returns tt /\
  exists handled rest,
    positions = handled ++ rest /\
    Forall (fun p => PrimFloat.leb (PrimFloat.abs (contracts p)) 0.00001 = true \/
                     PrimFloat.eqb (entryPrice p * PrimFloat.abs (contracts p)) 0
                       = false) handled /\
    (rest = [] \/
     exists p rest',
       rest = p :: rest' /\
       PrimFloat.leb (PrimFloat.abs (contracts p)) 0.00001 = false /\
       PrimFloat.eqb (entryPrice p * PrimFloat.abs (contracts p)) 0 = true) /\
    (monitor_iteration x s).2 =
      (for_each (List.filter (lock_due c) handled) (lock_position x c)
         (set_exchange_calls (exchange_calls s ++ [FetchPositions None]) s)).2.
Proof.
  intros Hfetch c. split; [|split; [|split; [|split]]].
  - intros p. split; [reflexivity|]. split.
    + unfold lock_due. fold dust. fold (abs_contracts p).
      rewrite andb_true_iff, negb_true_iff. reflexivity.
    + apply ltb_not_leb.
  - intros p t Hdust. rewrite monitor_position_run.
    fold dust in Hdust. fold (abs_contracts p) in Hdust. rewrite Hdust. reflexivity.
  - intros p t. rewrite lock_position_run. cbn zeta.
    pose proof (keeps_update_stop_loss x p t) as Hk. unfold wp in Hk.
    apply exchange_only_fields in Hk.
    destruct Hk as (_ & _ & _ & _ & _ & _ & Hlocks & Htotal & _).
    destruct (lock_append_lookup (pos_symbol p)
                (mkProfitLockEvent
                   (strftime x (exchange_calls (update_stop_loss x p t).2))
                   (profit_percentage c p))
                (profit_locks t)) as [Hsame Hother].
    cbn [total_profit_locks profit_locks exchange_calls set_total_profit_locks
         set_profit_locks].
    rewrite Htotal, Hlocks. auto.
  - unfold monitor_iteration. run_step. rewrite Hfetch.
    destruct (for_each positions _ _) as [[[]|e] s']; reflexivity.
  - unfold monitor_iteration. run_step. rewrite Hfetch.
    pose proof (monitor_loop_spec x c positions
                  (set_exchange_calls (exchange_calls s ++ [FetchPositions None]) s)
                  eq_refl) as H.
    destruct (for_each positions (monitor_position x) _) as [r s'].
    destruct H as (handled & rest & Hsplit & Hall & Hrest & Hs').
    exists handled, rest. split; [exact Hsplit|]. split; [exact Hall|]. split.
    + destruct Hrest as [[-> _] | (p & rest' & -> & Hd & Hz & _)];
        [left; reflexivity | right; exists p, rest'; auto].
    + destruct r as [[]|e]; exact Hs'.
Qed.

Lemma monitor_pass_witness :
  let x := sample_exchange 1000 [dust_sol; long_btc; short_eth] true (fun _ => true) in
  let s := init "account1" account1 in
  (monitor_iteration x s).1 = Returns tt /\
  total_profit_locks (monitor_iteration x s).2 = 2 /\
  lock_due account1 dust_sol = false /\
  lock_due account1 long_btc = true /\
  lock_due account1 short_eth = true.
Proof.
  intros x s.
  destruct (monitor_pass x s [dust_sol; long_btc; short_eth] eq_refl)
    as (_ & _ & _ & Hret & _).
  split; [exact Hret|]. vm_compute. repeat split; reflexivity.
Defined.

(** ** The counter of profit locks *)

Lemma locks_held_comm (j1 j2 : string) (z1 z2 : list ProfitLockEvent) (y : nat) :
  length z1 + (length z2 + y) = length z2 + (length z1 + y).
Proof. lia. Qed.

Lemma locks_held_empty : locks_held ∅ = 0.
Proof. apply map_fold_empty. Qed.

Lemma locks_held_insert_fresh (m : gmap string (list ProfitLockEvent)) k l :
  m !! k = None -> locks_held (<[k:=l]> m) = length l + locks_held m.
Proof.
  intros Hk. unfold locks_held.
  apply (map_fold_insert_L (fun _ l n => length l + n)); [|exact Hk].
  intros. apply locks_held_comm; assumption.
Qed.

Lemma locks_held_lookup (m : gmap string (list ProfitLockEvent)) k l :
  m !! k = Some l -> locks_held m = length l + locks_held (delete k m).
Proof.
  intros Hk. unfold locks_held.
  apply (map_fold_delete_L (fun _ l n => length l + n)); [|exact Hk].
  intros. apply locks_held_comm; assumption.
Qed.

(** [_record_profit_lock] adds one event to the dict. *)
Lemma locks_held_append (m : gmap string (list ProfitLockEvent)) k ev :
  locks_held (lock_append k ev m) = S (locks_held m).
Proof.
  unfold lock_append. destruct (m !! k) as [l|] eqn:Hk.
  - rewrite (locks_held_lookup m k l Hk).
    rewrite <- (insert_delete_id m k l Hk) at 1.
    rewrite alter_insert_eq.
    rewrite locks_held_insert_fresh by apply lookup_delete_eq.
    rewrite length_app. cbn. lia.
  - rewrite alter_insert_eq. rewrite locks_held_insert_fresh by exact Hk.
    reflexivity.
Qed.

Lemma lock_position_counted x c p s :
  locks_counted s -> locks_counted (lock_position x c p s).2.
Proof.
  unfold locks_counted. intros H. rewrite lock_position_run. cbn.
  pose proof (keeps_update_stop_loss x p s) as Hk. unfold wp in Hk.
  apply exchange_only_fields in Hk.
  destruct Hk as (_ & _ & _ & _ & _ & _ & -> & -> & _).
  rewrite locks_held_append, H. lia.
Qed.

Lemma lock_position_outside x c p s :
  outside_locks (lock_position x c p s).2 = outside_locks s.
Proof.
  rewrite lock_position_run. cbn.
  pose proof (update_stop_loss_returns x p s) as Hr.
  unfold update_stop_loss in *. revert Hr. run_step.
  destruct (x_price_to_precision x _ _ _) as [price|e]; [|reflexivity].
  destruct (x_create_order x _ _); reflexivity.
Qed.

(** A step of the loop of the monitor keeps [I] when locking a profit does. *)
Lemma monitor_position_keeps (I : Executor -> Prop) x p s :
  (forall c t, I t -> I (lock_position x c p t).2) ->
  I s -> I (monitor_position x p s).2.
Proof.
  intros Hlock Hs. rewrite monitor_position_run.
  destruct (PrimFloat.leb _ _); [exact Hs|].
  destruct (PrimFloat.eqb _ _); [exact Hs|].
  destruct (lock_due _ _); [apply Hlock, Hs | exact Hs].
Qed.

(** A pass of the monitor keeps [I] when requests and locking a profit do. *)
Lemma monitor_iteration_keeps (I : Executor -> Prop) x s :
  (forall c t, I t -> I (set_exchange_calls c t)) ->
  (forall c p t, I t -> I (lock_position x c p t).2) ->
  I s -> I (monitor_iteration x s).2.
Proof.
  intros Hreq Hlock Hs. change (wp (monitor_iteration x) s (fun _ s' => I s')).
  unfold monitor_iteration. apply wp_try_except, wp_bind, wp_request.
  destruct (x_fetch_positions x (exchange_calls s) None) as [positions|e];
    [|apply wp_ret, Hreq, Hs].
  eapply wp_mono.
  - apply (wp_for_each positions (monitor_position x) I); [apply Hreq, Hs|].
    intros p t _ Ht. unfold wp. apply monitor_position_keeps; [|exact Ht].
    intros c t'. apply Hlock.
  - intros [[]|e] s' Hs'; [exact Hs' | apply wp_ret, Hs'].
Qed.

Lemma monitor_loop_top_run x s :
  monitor_loop_top x s =
    if monitoring_active s then monitor_iteration x s
    else (Returns tt, set_monitor_threads (monitor_threads s - 1) s).
Proof.
  unfold monitor_loop_top, mbind, M_bind, gets.
  destruct (monitoring_active s); reflexivity.
Qed.

Lemma control_account_run action s :
  (control_account action s).2 = s \/
  (exists b, (control_account action s).2 = set_trading_enabled b s) \/
  (action = "toggle_monitor" /\
   (control_account action s).2 =
     set_monitoring_active (negb (monitoring_active s)) s).
Proof.
  unfold control_account.
  destruct (String.eqb_spec action "pause"); [right; left; eexists; reflexivity|].
  destruct (String.eqb_spec action "resume"); [right; left; eexists; reflexivity|].
  destruct (String.eqb_spec action "toggle_monitor"); [right; right; auto|].
  left. reflexivity.
Qed.

Lemma step_locks_counted s s' : step s s' -> locks_counted s -> locks_counted s'.
Proof.
  intros Hstep Hs. destruct Hstep as [x symbol side k1 k2 s|x s|action s|x s Hlive].
  - pose proof (place_order_spec x symbol side k1 k2 s) as [H _].
    apply exchange_only_fields in H. cbn in H.
    destruct H as (_ & _ & _ & _ & _ & _ & Hl & Ht & _).
    unfold locks_counted in *. congruence.
  - pose proof (keeps_get_wallet_balance x s) as H. unfold wp in H.
    apply exchange_only_fields in H.
    destruct H as (_ & _ & _ & _ & _ & _ & Hl & Ht & _).
    unfold locks_counted in *. congruence.
  - destruct (control_account_run action s) as [-> | [[b ->] | [_ ->]]]; exact Hs.
  - rewrite monitor_loop_top_run. destruct (monitoring_active s); [|exact Hs].
    apply monitor_iteration_keeps; [auto | | exact Hs].
    intros c p t. apply lock_position_counted.
Qed.

Lemma reachable_locks_counted id c s : reachable id c s -> locks_counted s.
Proof.
  induction 1 as [|s s' _ IH Hstep].
  - unfold init, locks_counted. cbn.
    destruct (cfg_monitoring_active c); symmetry; apply locks_held_empty.
  - exact (step_locks_counted s s' Hstep IH).
Qed.

(** The events held, as a sum over the entries of the dict. *)
Lemma locks_held_sum (m : gmap string (list ProfitLockEvent)) :
  locks_held m = sum_list_with (fun kv => length kv.2) (map_to_list m).
Proof.
  unfold locks_held. rewrite map_fold_foldr.
  induction (map_to_list m) as [|[k l] kvs IH]; cbn; [reflexivity|].
  rewrite IH. reflexivity.
Qed.

(** C10. At every state an executor can reach, [total_profit_locks] equals
    the number of events held in [profit_locks], the sum over its symbols of
    the lengths of their lists: both are empty or zero when the executor is
    built, and [_record_profit_lock], the only method that writes either,
    appends one event under one symbol and adds one to the counter. *)
Theorem profit_locks_counted (id : string) (c : AccountConfig) (s : Executor) :
  reachable id c s ->
  total_profit_locks s = locks_held (profit_locks s) /\
  total_profit_locks s =
    sum_list_with (fun kv => length kv.2) (map_to_list (profit_locks s)).
Proof.
  intros Hreach. apply reachable_locks_counted in Hreach.
  unfold locks_counted in Hreach. split; [exact Hreach|].
  rewrite Hreach. apply locks_held_sum.
Qed.

Lemma profit_locks_counted_witness :
  let x := sample_exchange 1000 [long_btc; short_eth] true (fun _ => true) in
  let s := (monitor_loop_top x (init "account1" account1)).2 in
  total_profit_locks s = 2 /\
  total_profit_locks s = locks_held (profit_locks s).
Proof.
  intros x s. split; [vm_compute; reflexivity|].
  refine (proj1 (profit_locks_counted "account1" account1 s _)).
  eapply reachable_step; [apply reachable_init|].
  apply step_monitor. cbn. lia.
Defined.

(** ** Toggling the monitor *)

(** No step of an executor starts a monitor thread. *)
Lemma step_monitor_threads s s' : step s s' -> monitor_threads s' <= monitor_threads s.
Proof.
  intros Hstep. destruct Hstep as [x symbol side k1 k2 s|x s|action s|x s Hlive].
  - pose proof (place_order_spec x symbol side k1 k2 s) as [H _].
    apply exchange_only_fields in H. cbn in H.
    destruct H as (_ & _ & _ & _ & _ & _ & _ & _ & Ht). lia.
  - pose proof (keeps_get_wallet_balance x s) as H. unfold wp in H.
    apply exchange_only_fields in H.
    destruct H as (_ & _ & _ & _ & _ & _ & _ & _ & Ht). lia.
  - destruct (control_account_run action s) as [-> | [[b ->] | [_ ->]]];
      cbn; lia.
  - rewrite monitor_loop_top_run. destruct (monitoring_active s); [|cbn; lia].
    apply (monitor_iteration_keeps
             (fun t => monitor_threads t <= monitor_threads s)); [auto | | lia].
    intros c p t Ht.
    pose proof (lock_position_outside x c p t) as Ho. unfold outside_locks in Ho.
    injection Ho as _ _ _ _ _ _ _ ->. exact Ht.
Qed.

Lemma monitor_iteration_threads x s :
  monitor_threads (monitor_iteration x s).2 = monitor_threads s.
Proof.
  apply (monitor_iteration_keeps (fun t => monitor_threads t = monitor_threads s));
    [auto | | reflexivity].
  intros c p t Ht.
  pose proof (lock_position_outside x c p t) as Ho. unfold outside_locks in Ho.
  injection Ho as _ _ _ _ _ _ _ ->. exact Ht.
Qed.

Lemma init_monitor_threads id c :
  monitor_threads (init id c) = if cfg_monitoring_active c then 1 else 0.
Proof. unfold init. cbn. destruct (cfg_monitoring_active c); reflexivity. Qed.

Lemma reachable_monitor_threads id c s :
  reachable id c s -> monitor_threads s <= if cfg_monitoring_active c then 1 else 0.
Proof.
  induction 1 as [|s s' _ IH Hstep].
  - rewrite init_monitor_threads. lia.
  - apply step_monitor_threads in Hstep. lia.
Qed.

(** C9, two runs in which the toggle turns monitoring on and no monitor
    runs.  An executor built with monitoring off has no monitor thread, and
    toggling the monitor on answers [Monitoring enabled] and leaves it with
    none.  An executor built with monitoring on has its thread, started by
    [__init__]; it loses it once monitoring is toggled off and the thread
    comes to the top of its loop, and toggling the monitor on again leaves
    the flag set and no thread running. *)
Lemma toggle_starts_no_monitor :
  let x := sample_exchange 1000 [long_btc] true (fun _ => true) in
  (let s := init "account2" account_idle in
   let (message, s') := control_account "toggle_monitor" s in
   monitoring_active s = false /\ monitor_threads s = 0 /\
   message = Some "Monitoring enabled" /\
   monitoring_active s' = true /\ monitor_threads s' = 0) /\
  (let s := init "account1" account1 in
   let s1 := (control_account "toggle_monitor" s).2 in
   let s2 := (monitor_loop_top x s1).2 in
   let s3 := (control_account "toggle_monitor" s2).2 in
   monitoring_active s = true /\ monitor_threads s = 1 /\
   monitoring_active s1 = false /\ monitor_threads s2 = 0 /\
   monitoring_active s3 = true /\ monitor_threads s3 = 0).
Proof. vm_compute. repeat split; reflexivity. Qed.

(** What the toggle does, for every executor.  The toggle of
    [control_account] only flips
    [monitoring_active]: it starts no thread, stops none and issues no
    request.  A monitor thread is started only when the executor is built
    with monitoring on, so that an executor never has more than one, and none
    when built with monitoring off.  With the flag cleared, the thread that
    comes to the top of its loop returns without a request; with the flag
    set, it runs a pass and stays. *)
Theorem toggle_monitor_flips_flag_only (s : Executor) :
  (let (message, s') := control_account "toggle_monitor" s in
   message = Some (if negb (monitoring_active s)
                   then "Monitoring enabled" else "Monitoring disabled") /\
   s' = set_monitoring_active (negb (monitoring_active s)) s /\
   monitoring_active s' = negb (monitoring_active s) /\
   monitor_threads s' = monitor_threads s /\
   exchange_calls s' = exchange_calls s) /\
  (forall x, monitoring_active s = false ->
     monitor_loop_top x s =
       (Returns tt, set_monitor_threads (monitor_threads s - 1) s)) /\
  (forall x, monitoring_active s = true ->
     monitor_loop_top x s = monitor_iteration x s /\
     monitor_threads (monitor_iteration x s).2 = monitor_threads s) /\
  (forall id c,
     monitor_threads (init id c) = if cfg_monitoring_active c then 1 else 0) /\
  (forall id c, reachable id c s ->
     monitor_threads s <= 1 /\
     (cfg_monitoring_active c = false -> monitor_threads s = 0)).
Proof.
  split; [|split; [|split; [|split]]].
  - cbn. repeat split; reflexivity.
  - intros x Hoff. rewrite monitor_loop_top_run, Hoff. reflexivity.
  - intros x Hon. rewrite monitor_loop_top_run, Hon.
    split; [reflexivity | apply monitor_iteration_threads].
  - apply init_monitor_threads.
  - intros id c Hreach. apply reachable_monitor_threads in Hreach.
    destruct (cfg_monitoring_active c); split; try lia; discriminate.
Qed.

Lemma toggle_monitor_flips_flag_only_witness :
  let x := sample_exchange 1000 [long_btc] true (fun _ => true) in
  let s := (control_account "toggle_monitor" (init "account2" account_idle)).2 in
  monitoring_active s = true /\ monitor_threads s <= 1 /\ monitor_threads s = 0.
Proof.
  intros x s.
  destruct (toggle_monitor_flips_flag_only s) as (_ & _ & _ & _ & Hreach).
  assert (Hs : reachable "account2" account_idle s).
  { eapply reachable_step; [apply reachable_init | apply step_control]. }
  destruct (Hreach "account2" account_idle Hs) as [Hle Hzero].
  split; [reflexivity|]. split; [exact Hle | exact (Hzero eq_refl)].
Defined.

(** ** Relations kept by the methods *)

Section Respects.

Variable R : Executor -> Executor -> Prop.
Hypothesis R_refl : forall s, R s s.
Hypothesis R_trans : forall s1 s2 s3, R s1 s2 -> R s2 s3 -> R s1 s3.

Lemma respects_ret {A} (a : A) : respects R (mret a).
Proof. intros s. apply wp_ret, R_refl. Qed.

Lemma respects_raise {A} e : respects R (@raise A e).
Proof. intros s. apply wp_raise, R_refl. Qed.

Lemma respects_gets {A} (f : Executor -> A) : respects R (gets f).
Proof. intros s. apply wp_gets, R_refl. Qed.

Lemma respects_bind {A B} (m : M A) (k : A -> M B) :
  respects R m -> (forall a, respects R (k a)) -> respects R (m ≫= k).
Proof.
  intros Hm Hk s. apply wp_bind. eapply wp_mono; [apply Hm|].
  intros [a|e] s1 H1; [|exact H1].
  eapply wp_mono; [apply Hk|]. intros r s2 H2. exact (R_trans _ _ _ H1 H2).
Qed.

Lemma respects_try_except {A} (m : M A) (h : string -> M A) :
  respects R m -> (forall e, respects R (h e)) -> respects R (try_except m h).
Proof.
  intros Hm Hh s. apply wp_try_except. eapply wp_mono; [apply Hm|].
  intros [a|e] s1 H1; [exact H1|].
  eapply wp_mono; [apply Hh|]. intros r s2 H2. exact (R_trans _ _ _ H1 H2).
Qed.

Lemma respects_float_div {A} x y (k : float -> M A) :
  (forall q, respects R (k q)) -> respects R (float_div x y k).
Proof.
  intros Hk. unfold float_div. destruct (PrimFloat.eqb y 0);
    [apply respects_raise | apply Hk].
Qed.

Lemma respects_for_each {A} (l : list A) (body : A -> M unit) :
  (forall a, respects R (body a)) -> respects R (for_each l body).
Proof.
  intros Hb. induction l as [|a l IH]; cbn [for_each].
  - apply respects_ret.
  - apply respects_bind; [apply Hb | intros _; exact IH].
Qed.

Lemma respects_request {A} c (answer : list Call -> outcome A) :
  (forall s, R s (set_exchange_calls (exchange_calls s ++ [c]) s)) ->
  respects R (request c answer).
Proof. intros H s. apply wp_request, H. Qed.

Lemma respects_modify (f : Executor -> Executor) :
  (forall s, R s (f s)) -> respects R (modify f).
Proof. intros H s. apply wp_modify, H. Qed.

End Respects.

Lemma never_enables_refl s : never_enables s s.
Proof. intros H. exact H. Qed.

Lemma never_enables_trans s1 s2 s3 :
  never_enables s1 s2 -> never_enables s2 s3 -> never_enables s1 s3.
Proof. unfold never_enables. auto. Qed.

Lemma requests_only_refl P s : requests_only P s s.
Proof. exists []. split; [symmetry; apply app_nil_r | constructor]. Qed.

Lemma requests_only_trans P s1 s2 s3 :
  requests_only P s1 s2 -> requests_only P s2 s3 -> requests_only P s1 s3.
Proof.
  intros (l1 & E1 & H1) (l2 & E2 & H2). exists (l1 ++ l2). split.
  - rewrite E2, E1. symmetry. apply app_assoc.
  - apply Forall_app. auto.
Qed.

Lemma requests_only_request (P : Call -> Prop) c s :
  P c -> requests_only P s (set_exchange_calls (exchange_calls s ++ [c]) s).
Proof. intros Hc. exists [c]. split; [reflexivity | repeat constructor; exact Hc]. Qed.

Lemma requests_only_silent (P : Call -> Prop) s s' :
  exchange_calls s' = exchange_calls s -> requests_only P s s'.
Proof. intros E. exists []. rewrite E, app_nil_r. split; [reflexivity | constructor]. Qed.

(** Breaking a method into its statements, for a relation kept by each. *)
Ltac respects_steps Rrefl Rtrans :=
  repeat first
    [ apply (respects_ret _ Rrefl)
    | apply (respects_raise _ Rrefl)
    | apply (respects_gets _ Rrefl)
    | apply (respects_bind _ Rtrans); [|intros ?]
    | apply (respects_try_except _ Rtrans); [|intros ?]
    | apply (respects_float_div _ Rrefl); intros ?
    | apply (respects_for_each _ Rrefl Rtrans); intros ?
    | apply respects_request; intros ?
    | apply respects_modify; intros ?
    | match goal with
      | |- respects _ (if ?b then _ else _) => destruct b
      | |- respects _ (let '(_, _) := ?p in _) => destruct p
      end ].

Ltac never_enables_step :=
  first [ apply never_enables_refl
        | let H := fresh in intros H; first [exact H | discriminate H] ].

Lemma never_enables_close_all_positions x :
  respects never_enables (close_all_positions x).
Proof.
  unfold close_all_positions, close_position.
  respects_steps never_enables_refl never_enables_trans; never_enables_step.
Qed.

Lemma never_enables_get_wallet_balance x :
  respects never_enables (get_wallet_balance x).
Proof.
  unfold get_wallet_balance, close_all_positions, close_position.
  respects_steps never_enables_refl never_enables_trans; never_enables_step.
Qed.

Lemma never_enables_place_order x symbol side k1 k2 :
  respects never_enables (place_order x symbol side k1 k2).
Proof.
  unfold place_order, place_order_sized, place_order_bracket,
    check_existing_position, set_leverage, calculate_position_size, _log_trade,
    get_wallet_balance, close_all_positions, close_position.
  respects_steps never_enables_refl never_enables_trans; never_enables_step.
Qed.

Lemma never_enables_monitor_iteration x :
  respects never_enables (monitor_iteration x).
Proof.
  unfold monitor_iteration, monitor_position, update_stop_loss,
    _record_profit_lock.
  respects_steps never_enables_refl never_enables_trans; never_enables_step.
Qed.

Ltac requests_only_step :=
  first [ apply requests_only_refl
        | apply requests_only_silent; reflexivity
        | apply requests_only_request; cbn;
          first [ exact I | split; [reflexivity | cbn; tauto] | tauto ] ].

Lemma breaker_calls_get_wallet_balance x :
  respects (requests_only breaker_call) (get_wallet_balance x).
Proof.
  unfold get_wallet_balance, close_all_positions, close_position.
  respects_steps (requests_only_refl breaker_call) (requests_only_trans breaker_call);
    requests_only_step.
Qed.

Lemma monitor_calls_monitor_iteration x :
  respects (requests_only monitor_call) (monitor_iteration x).
Proof.
  unfold monitor_iteration, monitor_position, update_stop_loss,
    _record_profit_lock.
  respects_steps (requests_only_refl monitor_call) (requests_only_trans monitor_call);
    requests_only_step.
Qed.

Lemma before_order_calls_check_existing_position x symbol :
  respects (requests_only before_order_call) (check_existing_position x symbol).
Proof.
  unfold check_existing_position.
  respects_steps (requests_only_refl before_order_call)
    (requests_only_trans before_order_call); requests_only_step.
Qed.

Lemma before_order_calls_set_leverage x symbol :
  respects (requests_only before_order_call) (set_leverage x symbol).
Proof.
  unfold set_leverage.
  respects_steps (requests_only_refl before_order_call)
    (requests_only_trans before_order_call); requests_only_step.
Qed.

Lemma before_order_calls_calculate_position_size x symbol f :
  respects (requests_only before_order_call) (calculate_position_size x symbol f).
Proof.
  unfold calculate_position_size, get_wallet_balance, close_all_positions,
    close_position.
  respects_steps (requests_only_refl before_order_call)
    (requests_only_trans before_order_call); requests_only_step.
Qed.

(** ** Trading once disabled *)

(** X1. Once [trading_enabled] is false, no method of the executor turns it
    on again: not [place_order], not [get_wallet_balance], not the monitor.
    Of the actions of [control_account], resume alone leaves it true. *)
Theorem trading_stays_disabled (x : Exchange) (symbol side k1 k2 : string)
    (s : Executor) :
  trading_enabled s = false ->
  trading_enabled (place_order x symbol side k1 k2 s).2 = false /\
  trading_enabled (get_wallet_balance x s).2 = false /\
  trading_enabled (monitor_loop_top x s).2 = false /\
  (forall action,
     trading_enabled (control_account action s).2 = true <-> action = "resume").
Proof.
  intros Hoff.
  assert (Hkeep : forall s', never_enables s s' -> trading_enabled s' = false).
  { intros s' H. destruct (trading_enabled s') eqn:E; [|reflexivity].
    specialize (H E). congruence. }
  split; [|split; [|split]].
  - apply Hkeep, (never_enables_place_order x symbol side k1 k2 s).
  - apply Hkeep, (never_enables_get_wallet_balance x s).
  - rewrite monitor_loop_top_run. destruct (monitoring_active s); [|exact Hoff].
    apply Hkeep, (never_enables_monitor_iteration x s).
  - intros action. unfold control_account.
    destruct (String.eqb_spec action "pause") as [->|Hp];
      [split; [discriminate | discriminate]|].
    destruct (String.eqb_spec action "resume") as [->|Hr];
      [split; reflexivity|].
    destruct (String.eqb action "toggle_monitor"); cbn; rewrite Hoff;
      split; first [discriminate | congruence].
Qed.

Lemma trading_stays_disabled_witness :
  let x := sample_exchange 1000 [long_btc] true (fun _ => true) in
  let s := (get_wallet_balance (sample_exchange 50 [] true (fun _ => true))
              (init "account1" account1)).2 in
  trading_enabled s = false /\
  trading_enabled (place_order x "BTCUSDT" "buy" "limit" "market" s).2 = false /\
  trading_enabled (get_wallet_balance x s).2 = false /\
  trading_enabled (control_account "resume" s).2 = true.
Proof.
  intros x s.
  destruct (trading_stays_disabled x "BTCUSDT" "buy" "limit" "market" s eq_refl)
    as (Hplace & Hbalance & _ & Hcontrol).
  split; [reflexivity|]. split; [exact Hplace|]. split; [exact Hbalance|].
  apply Hcontrol. reflexivity.
Defined.

(** ** What the breaker and the monitor may request *)

(** X2. Whatever the exchange answers, [get_wallet_balance], and with it
    the status route, issues no request but the balance, the positions and
    market orders with [reduce_only] set, and changes nothing of the executor
    but [trading_enabled] and the request log. *)
Theorem breaker_only_reduces (x : Exchange) (s : Executor) :
  let s' := (get_wallet_balance x s).2 in
  (get_account_status x s).2 = s' /\
  (exists l,
     exchange_calls s' = exchange_calls s ++ l /\
     Forall (fun c => match c with
                      | FetchBalance | FetchPositions None => True
                      | CreateMarketOrder o =>
                          ord_type o = "market" /\
                          ord_params o = [("reduce_only", VBool true)]
                      | _ => False
                      end) l) /\
  trade_history s' = trade_history s /\
  failed_trades s' = failed_trades s /\
  profit_locks s' = profit_locks s /\
  total_profit_locks s' = total_profit_locks s /\
  monitoring_active s' = monitoring_active s /\
  config s' = config s.
Proof.
  intros s'. split; [|split].
  - unfold get_account_status, s'.
    destruct (get_wallet_balance x s) as [[b|e] t]; reflexivity.
  - exact (breaker_calls_get_wallet_balance x s).
  - pose proof (keeps_get_wallet_balance x s) as H. unfold wp in H.
    apply exchange_only_fields in H. fold s' in H. tauto.
Qed.

Lemma monitor_iteration_returns x s : (monitor_iteration x s).1 = Returns tt.
Proof.
  unfold monitor_iteration. run_step.
  destruct (x_fetch_positions x (exchange_calls s) None) as [positions|e];
    [|reflexivity].
  destruct (for_each positions _ _) as [[[]|e] s']; reflexivity.
Qed.

(** X3. A monitor thread at the top of its loop never raises, whatever the
    exchange answers.  It issues no request but the positions, roundings and
    stop orders with [reduceOnly] set, and it changes neither
    [trading_enabled], nor [monitoring_active], nor the trade lists. *)
Theorem monitor_only_protects (x : Exchange) (s : Executor) :
  let s' := (monitor_loop_top x s).2 in
  (monitor_loop_top x s).1 = Returns tt /\
  (exists l,
     exchange_calls s' = exchange_calls s ++ l /\
     Forall (fun c => match c with
                      | FetchPositions None | PriceToPrecision _ _ => True
                      | CreateOrder o =>
                          ord_type o = "stop" /\
                          In ("reduceOnly", VBool true) (ord_params o)
                      | _ => False
                      end) l) /\
  trading_enabled s' = trading_enabled s /\
  monitoring_active s' = monitoring_active s /\
  trade_history s' = trade_history s /\
  failed_trades s' = failed_trades s /\
  config s' = config s.
Proof.
  intros s'. unfold s'. rewrite monitor_loop_top_run.
  destruct (monitoring_active s) eqn:Hactive.
  - split; [apply monitor_iteration_returns|].
    split; [exact (monitor_calls_monitor_iteration x s)|].
    assert (Ho : outside_locks (monitor_iteration x s).2 = outside_locks s).
    { apply (monitor_iteration_keeps (fun t => outside_locks t = outside_locks s));
        [auto | | reflexivity].
      intros c p t Ht. rewrite lock_position_outside. exact Ht. }
    unfold outside_locks in Ho. injection Ho as _ Hc Ht Hm Hh Hf _ _.
    rewrite Hactive in Hm. auto.
  - split; [reflexivity|]. split; [apply requests_only_silent; reflexivity|].
    cbn. auto.
Qed.

(** ** The requests of [place_order] *)

Lemma place_order_bracket_calls x symbol side size P s :
  let (r, s') := place_order_bracket x symbol side size P s in
  exists before tail,
    exchange_calls s' = exchange_calls s ++ before ++ tail /\
    Forall before_order_call before /\
    (tail = [] \/
     exists tp sl, tail = [CreateOrder (entry_order symbol side size tp sl)]) /\
    (forall o, r = Returns (ResSuccess o) -> tail <> []).
Proof.
  unfold place_order_bracket, _log_trade. run_step.
  destruct (x_price_to_precision x (exchange_calls s) symbol _) as [tp|e].
  2:{ eexists [_], []. cbn.
      split; [reflexivity|]. split; [repeat constructor|].
      split; [left; reflexivity | discriminate]. }
  destruct (x_price_to_precision x _ symbol _) as [sl|e].
  2:{ eexists [_; _], []. cbn. rewrite <- app_assoc.
      split; [reflexivity|]. split; [repeat constructor|].
      split; [left; reflexivity | discriminate]. }
  destruct (x_create_order x _ _) as [o|e];
    eexists [_; _], [CreateOrder (entry_order symbol side size tp sl)];
    cbn; rewrite <- !app_assoc;
    (split; [reflexivity|]); (split; [repeat constructor|]);
    (split; [right; eauto | discriminate]).
Qed.

(** The requests of [place_order]: only the last can be its order. *)
Lemma place_order_calls x symbol side k1 k2 s :
  wp (place_order x symbol side k1 k2) s (fun r s' =>
    exists before tail,
      exchange_calls s' = exchange_calls s ++ before ++ tail /\
      Forall before_order_call before /\
      (tail = [] \/
       exists size tp sl,
         tail = [CreateOrder (entry_order symbol side size tp sl)]) /\
      (forall o, r = Returns (ResSuccess o) -> tail <> [])).
Proof.
  assert (Hfail : forall e s1, requests_only before_order_call s s1 ->
            wp (mret (ResError e) : M OrderResult) s1 (fun r s' =>
              exists before tail,
                exchange_calls s' = exchange_calls s ++ before ++ tail /\
                Forall before_order_call before /\
                (tail = [] \/
                 exists size tp sl,
                   tail = [CreateOrder (entry_order symbol side size tp sl)]) /\
                (forall o, r = Returns (ResSuccess o) -> tail <> []))).
  { intros e s1 (l & El & Hl). apply wp_ret. exists l, [].
    rewrite app_nil_r. split; [exact El|]. split; [exact Hl|].
    split; [left; reflexivity | discriminate]. }
  unfold place_order. apply wp_try_except, wp_bind, wp_gets.
  destruct (trading_enabled s); cbn [negb].
  2:{ apply wp_ret. exists [], []. cbn. rewrite app_nil_r.
      split; [reflexivity|]. split; [constructor|].
      split; [left; reflexivity | discriminate]. }
  apply wp_bind.
  eapply wp_mono; [apply before_order_calls_check_existing_position|].
  intros [found|e] s1 H1; [|apply Hfail, H1].
  unfold place_order_sized. apply wp_bind.
  eapply wp_mono; [apply before_order_calls_set_leverage|]. cbn beta.
  intros [[]|e] s2 H2;
    pose proof (requests_only_trans _ _ _ _ H1 H2) as H12; [|apply Hfail, H12].
  apply wp_bind.
  eapply wp_mono; [apply before_order_calls_calculate_position_size|]. cbn beta.
  intros [[size P]|e] s3 H3;
    pose proof (requests_only_trans _ _ _ _ H12 H3) as H13; [|apply Hfail, H13].
  pose proof (place_order_bracket_calls x symbol side size P s3) as Hb.
  unfold wp. destruct (place_order_bracket x symbol side size P s3) as [r s4].
  cbn [fst snd]. destruct H13 as (l & El & Hl).
  destruct Hb as (before & tail & Eb & Hbefore & Htail & Hok).
  assert (Hall : exists before' tail',
            exchange_calls s4 = exchange_calls s ++ before' ++ tail' /\
            Forall before_order_call before' /\
            (tail' = [] \/
             exists size tp sl,
               tail' = [CreateOrder (entry_order symbol side size tp sl)]) /\
            tail' = tail).
  { exists (l ++ before), tail. rewrite Eb, El, <- !app_assoc.
    split; [reflexivity|]. split; [apply Forall_app; auto|].
    split; [|reflexivity].
    destruct Htail as [->|(tp & sl & ->)]; [left; reflexivity|].
    right. exists size, tp, sl. reflexivity. }
  destruct Hall as (before' & tail' & E' & Hb' & Ht' & ->).
  destruct r as [res|e].
  - exists before', tail. auto.
  - apply wp_ret. exists before', tail. cbn.
    split; [exact E'|]. split; [exact Hb'|]. split; [exact Ht' | discriminate].
Qed.

(** X4. [place_order] never raises: whatever the exchange answers, it
    returns a result.  Of its requests only the last can be [create_order],
    and then it is the entry order: a market order on the symbol, on the
    lower-cased side, not reduce-only, its triggers on the last price.  A
    result of success comes with that order.  Any market order before it is
    a reduce-only order of the breaker. *)
Theorem place_order_requests (x : Exchange) (symbol side k1 k2 : string)
    (s : Executor) :
  let (r, s') := place_order x symbol side k1 k2 s in
  (exists result, r = Returns result) /\
  exists before tail,
    exchange_calls s' = exchange_calls s ++ before ++ tail /\
    Forall (fun c => match c with
                     | CreateOrder _ => False
                     | CreateMarketOrder o =>
                         ord_type o = "market" /\
                         ord_params o = [("reduce_only", VBool true)]
                     | _ => True
                     end) before /\
    (tail = [] \/
     exists size tp sl,
       tail = [CreateOrder
                 {| ord_symbol := symbol; ord_type := "market";
                    ord_side := lower side; ord_amount := size;
                    ord_price := None;
                    ord_params := [("takeProfit", VStr tp); ("stopLoss", VStr sl);
                                   ("tpTriggerBy", VStr "LastPrice");
                                   ("slTriggerBy", VStr "LastPrice");
                                   ("reduceOnly", VBool false)] |}]) /\
    (forall o, r = Returns (ResSuccess o) -> tail <> []).
Proof.
  pose proof (place_order_spec x symbol side k1 k2 s) as Hspec.
  pose proof (place_order_calls x symbol side k1 k2 s) as Hcalls.
  unfold wp in Hspec, Hcalls.
  destruct (place_order x symbol side k1 k2 s) as [r s']. cbn [fst snd] in *.
  split.
  - destruct Hspec as [_ [(o & rec & -> & _) | (msg & -> & _)]]; eauto.
  - exact Hcalls.
Qed.

(** ** Errors of the exchange during a placement *)

Lemma set_leverage_run x symbol s :
  set_leverage x symbol s =
    (Returns tt,
     set_exchange_calls
       (exchange_calls s ++ [SetLeverage (leverage (config s)) symbol]) s).
Proof.
  unfold set_leverage. run_step.
  destruct (x_set_leverage x _ _ _) as [[]|e]; reflexivity.
Qed.

(** X5. What the exchange answers to [set_leverage] changes nothing:
    [set_leverage] returns after its one request whether the exchange
    accepts or raises, and [place_order] has the same result and leaves the
    same executor under any two exchanges that differ only in those
    answers. *)
Theorem leverage_errors_ignored (f : list Call -> Z -> string -> outcome unit)
    (x : Exchange) (symbol side k1 k2 : string) (s : Executor) :
  set_leverage x symbol s =
    (Returns tt,
     set_exchange_calls
       (exchange_calls s ++ [SetLeverage (leverage (config s)) symbol]) s) /\
  place_order (with_set_leverage f x) symbol side k1 k2 s =
    place_order x symbol side k1 k2 s.
Proof.
  split; [apply set_leverage_run|].
  unfold place_order, try_except, mbind, M_bind, gets.
  destruct (negb (trading_enabled s)); [reflexivity|].
  change (check_existing_position (with_set_leverage f x) symbol s)
    with (check_existing_position x symbol s).
  destruct (check_existing_position x symbol s) as [[found|e] s1]; [|reflexivity].
  unfold place_order_sized, mbind, M_bind. rewrite !set_leverage_run.
  reflexivity.
Qed.

(** X6. With a balance at or above the threshold, a price other than zero
    and an exchange that answers, [calculate_position_size] returns the
    rounding of [balance * (risk_percentage / 100) * leverage / price *
    multiply_factor] with the price, after four requests: the balance, the
    ticker, the market and the rounding.  Nothing is flattened and the
    executor is otherwise unchanged. *)
Theorem sizing_at_or_above_threshold (x : Exchange) (symbol : string)
    (multiply_factor : float) (s : Executor) (b price size : float) :
  x_fetch_balance x (exchange_calls s) = Returns b ->
  PrimFloat.ltb b (balance_threshold (config s)) = false ->
  let h := exchange_calls s ++ [FetchBalance] in
  let raw := (b * (risk_percentage (config s) / 100)
                * float_of_int (leverage (config s)) / price
                * multiply_factor)%float in
  x_fetch_ticker x h symbol = Returns price ->
  PrimFloat.eqb price 0 = false ->
  x_market x (h ++ [FetchTicker symbol]) symbol = Returns tt ->
  x_amount_to_precision x (h ++ [FetchTicker symbol; Market symbol]) symbol raw
    = Returns size ->
  calculate_position_size x symbol multiply_factor s =
    (Returns (size, price),
     set_exchange_calls
       (exchange_calls s ++
          [FetchBalance; FetchTicker symbol; Market symbol;
           AmountToPrecision symbol raw]) s).
Proof.
  intros Hb Hlt h raw Hticker Hprice Hmarket Hround.
  unfold h in *. rewrite <- ?app_assoc in Hmarket, Hround.
  cbn [app] in Hmarket, Hround.
  unfold calculate_position_size.
  unfold mbind, M_bind, mret, M_ret, request, gets, raise, try_except.
  rewrite (get_wallet_balance_above x s b Hb Hlt).
  cbn [fst snd exchange_calls set_exchange_calls config].
  rewrite Hticker. unfold float_div. rewrite Hprice. fold raw.
  cbn [exchange_calls set_exchange_calls].
  rewrite <- ?app_assoc. cbn [app]. rewrite Hmarket, Hround.
  destruct s; reflexivity.
Qed.

Lemma sizing_at_or_above_threshold_witness :
  let x := sample_exchange 1000 [long_btc] true (fun _ => true) in
  let s := init "account1" account1 in
  calculate_position_size x "BTCUSDT" 2 s =
    (Returns (1%float, 100%float),
     set_exchange_calls
       [FetchBalance; FetchTicker "BTCUSDT"; Market "BTCUSDT";
        AmountToPrecision "BTCUSDT" 1] s).
Proof.
  intros x s.
  exact (sizing_at_or_above_threshold x "BTCUSDT" 2 s 1000 100 1
           eq_refl eq_refl eq_refl eq_refl eq_refl eq_refl).
Defined.

Lemma get_wallet_balance_returns x s b :
  x_fetch_balance x (exchange_calls s) = Returns b ->
  (get_wallet_balance x s).1 = Returns b.
Proof.
  intros Hb.
  destruct (PrimFloat.ltb b (balance_threshold (config s))) eqn:Hlt.
  - rewrite (get_wallet_balance_below x s b Hb Hlt). reflexivity.
  - rewrite (get_wallet_balance_above x s b Hb Hlt). reflexivity.
Qed.

Lemma get_wallet_balance_raises x s e :
  x_fetch_balance x (exchange_calls s) = Raises e ->
  get_wallet_balance x s =
    (Raises e, set_exchange_calls (exchange_calls s ++ [FetchBalance]) s).
Proof. intros Hb. unfold get_wallet_balance. run_step. rewrite Hb. reflexivity. Qed.

(** X7. A last price equal to zero stops the placement: with the gate
    passed, the probe and the balance answered, [place_order] returns the
    error [float division by zero]; it issues no [create_order] request and
    logs no trade. *)
Theorem zero_price_stops_placement (x : Exchange) (symbol side k1 k2 : string)
    (s : Executor) (price : float) :
  trading_enabled s = true ->
  (forall h, exists positions,
     x_fetch_positions x h (Some [symbol]) = Returns positions) ->
  (forall h, exists b, x_fetch_balance x h = Returns b) ->
  (forall h, x_fetch_ticker x h symbol = Returns price) ->
  PrimFloat.eqb price 0 = true ->
  let (r, s') := place_order x symbol side k1 k2 s in
  r = Returns (ResError "float division by zero") /\
  trade_history s' = trade_history s /\
  exists l,
    exchange_calls s' = exchange_calls s ++ l /\
    Forall (fun c => match c with
                     | CreateOrder _ => False
                     | CreateMarketOrder o =>
                         ord_type o = "market" /\
                         ord_params o = [("reduce_only", VBool true)]
                     | _ => True
                     end) l.
Proof.
  intros Hon Hprobe Hbalance Hticker Hzero.
  pose proof (place_order_spec x symbol side k1 k2 s) as Hspec.
  unfold wp in Hspec. revert Hspec.
  unfold place_order, try_except, mbind, M_bind, gets. rewrite Hon. cbn [negb].
  pose proof (before_order_calls_check_existing_position x symbol s) as H1.
  unfold wp in H1.
  assert (Hfound : exists found, (check_existing_position x symbol s).1 = Returns found).
  { unfold check_existing_position. run_step.
    destruct (Hprobe (exchange_calls s)) as [positions ->]. eauto. }
  destruct (check_existing_position x symbol s) as [r1 s1]. cbn [fst snd] in *.
  destruct Hfound as [found ->].
  unfold place_order_sized, mbind, M_bind. rewrite set_leverage_run.
  set (s2 := set_exchange_calls _ s1).
  assert (H2 : requests_only before_order_call s1 s2).
  { apply requests_only_request. exact I. }
  pose proof (before_order_calls_calculate_position_size x symbol
                (float_of_int (position_multiplier found side)) s2) as H3.
  unfold wp in H3.
  assert (Hraise : (calculate_position_size x symbol
                      (float_of_int (position_multiplier found side)) s2).1
                   = Raises "float division by zero").
  { unfold calculate_position_size. run_step.
    destruct (Hbalance (exchange_calls s2)) as [b Hb].
    pose proof (get_wallet_balance_returns x s2 b Hb) as Hr.
    destruct (get_wallet_balance x s2) as [rb sb]. cbn [fst] in Hr. subst rb.
    rewrite Hticker. unfold float_div. rewrite Hzero. reflexivity. }
  destruct (calculate_position_size x symbol _ s2) as [r3 s3].
  cbn [fst snd] in *. subst r3. cbn [fst snd].
  intros [_ [(o & rec & Hr & _) | (msg & _ & Hth)]]; [discriminate Hr|].
  split; [reflexivity|]. split; [exact Hth|].
  exact (requests_only_trans _ _ _ _ (requests_only_trans _ _ _ _ H1 H2) H3).
Qed.

Lemma zero_price_stops_placement_witness :
  let x := with_set_leverage (fun _ _ _ => Raises "leverage not modified")
             (mkExchange (fun _ => Returns 1000%float)
                (fun _ _ => Returns [long_btc]) (fun _ _ => Returns "closed")
                (fun _ _ _ => Returns tt) (fun _ _ => Returns 0%float)
                (fun _ _ => Returns tt) (fun _ _ a => Returns a)
                (fun _ _ _ => Returns "price") (fun _ _ => Returns "order-1")
                (fun _ => "2024-01-01 00:00:00")) in
  let s := init "account1" account1 in
  (place_order x "BTCUSDT" "buy" "limit" "market" s).1
    = Returns (ResError "float division by zero").
Proof.
  intros x s.
  pose proof (zero_price_stops_placement x "BTCUSDT" "buy" "limit" "market" s 0
                eq_refl (fun _ => ex_intro _ [long_btc] eq_refl)
                (fun _ => ex_intro _ 1000%float eq_refl)
                (fun _ => eq_refl) eq_refl) as H.
  destruct (place_order x "BTCUSDT" "buy" "limit" "market" s) as [r s'].
  exact (proj1 H).
Defined.

(** X8. When the probe of the positions raises, [place_order] returns the
    error with the message of the exchange after that one request: the
    leverage is not set, the balance is not read, nothing else changes. *)
Theorem probe_failure_stops_placement (x : Exchange) (symbol side k1 k2 e : string)
    (s : Executor) :
  trading_enabled s = true ->
  x_fetch_positions x (exchange_calls s) (Some [symbol]) = Raises e ->
  place_order x symbol side k1 k2 s =
    (Returns (ResError e),
     set_exchange_calls
       (exchange_calls s ++ [FetchPositions (Some [symbol])]) s).
Proof.
  intros Hon Hprobe. unfold place_order, check_existing_position. run_step.
  rewrite Hon. cbn [negb]. rewrite Hprobe. reflexivity.
Qed.

Lemma probe_failure_stops_placement_witness :
  let x := mkExchange (fun _ => Returns 1000%float)
             (fun _ _ => Raises "network down") (fun _ _ => Returns "closed")
             (fun _ _ _ => Returns tt) (fun _ _ => Returns 100%float)
             (fun _ _ => Returns tt) (fun _ _ a => Returns a)
             (fun _ _ _ => Returns "price") (fun _ _ => Returns "order-1")
             (fun _ => "2024-01-01 00:00:00") in
  let s := init "account1" account1 in
  place_order x "BTCUSDT" "buy" "limit" "market" s =
    (Returns (ResError "network down"),
     set_exchange_calls [FetchPositions (Some ["BTCUSDT"])] s).
Proof.
  intros x s.
  exact (probe_failure_stops_placement x "BTCUSDT" "buy" "limit" "market"
           "network down" s eq_refl eq_refl).
Defined.

(** ** The status route *)

(** X9. [get_account_status] reads the flags and the counts before it
    fetches the balance.  When the fetch succeeds, the answer carries the
    values of the executor as they were before the call, with the balance;
    if that balance is below the threshold, the executor has
    [trading_enabled] false afterwards, whatever the answer says, and
    otherwise only the request is logged.  When the fetch raises, the answer
    is the error, with that one request logged. *)
Theorem status_reads_before_balance (x : Exchange) (s : Executor) :
  (forall b,
     x_fetch_balance x (exchange_calls s) = Returns b ->
     (get_account_status x s).1 =
       inl {| st_trading_enabled := trading_enabled s;
              st_monitoring_active := monitoring_active s;
              st_total_trades := length (trade_history s);
              st_failed_trades := length (failed_trades s);
              st_total_profit_locks := total_profit_locks s;
              st_balance := b |} /\
     (PrimFloat.ltb b (balance_threshold (config s)) = true ->
      trading_enabled (get_account_status x s).2 = false) /\
     (PrimFloat.ltb b (balance_threshold (config s)) = false ->
      (get_account_status x s).2 =
        set_exchange_calls (exchange_calls s ++ [FetchBalance]) s)) /\
  (forall e,
     x_fetch_balance x (exchange_calls s) = Raises e ->
     get_account_status x s =
       (inr e, set_exchange_calls (exchange_calls s ++ [FetchBalance]) s)).
Proof.
  split.
  - intros b Hb. unfold get_account_status. split; [|split].
    + pose proof (get_wallet_balance_returns x s b Hb) as Hr.
      destruct (get_wallet_balance x s) as [r s']. cbn in Hr. subst r. reflexivity.
    + intros Hlt. rewrite (get_wallet_balance_below x s b Hb Hlt). reflexivity.
    + intros Hlt. rewrite (get_wallet_balance_above x s b Hb Hlt). reflexivity.
  - intros e He. unfold get_account_status.
    rewrite (get_wallet_balance_raises x s e He). reflexivity.
Qed.

Lemma status_reads_before_balance_witness :
  let x := sample_exchange 50 [long_btc] true (fun _ => true) in
  let s := init "account1" account1 in
  (get_account_status x s).1 = inl (mkAccountStatus true true 0 0 0 50) /\
  trading_enabled (get_account_status x s).2 = false.
Proof.
  intros x s.
  destruct (status_reads_before_balance x s) as [Hok _].
  destruct (Hok 50%float eq_refl) as (Hanswer & Hbelow & _).
  split; [exact Hanswer | exact (Hbelow eq_refl)].
Defined.

(** ** What an executor keeps for life *)

Lemma step_static s s' :
  step s s' ->
  account_id s' = account_id s /\ config s' = config s /\
  failed_trades s' = failed_trades s /\ closed_trades s' = closed_trades s.
Proof.
  intros Hstep. destruct Hstep as [x symbol side k1 k2 s|x s|action s|x s Hlive].
  - pose proof (place_order_spec x symbol side k1 k2 s) as [H _].
    apply exchange_only_fields in H. cbn in H. tauto.
  - pose proof (keeps_get_wallet_balance x s) as H. unfold wp in H.
    apply exchange_only_fields in H. tauto.
  - destruct (control_account_run action s) as [-> | [[b ->] | [_ ->]]];
      repeat split.
  - rewrite monitor_loop_top_run. destruct (monitoring_active s); [|repeat split].
    assert (Ho : outside_locks (monitor_iteration x s).2 = outside_locks s).
    { apply (monitor_iteration_keeps (fun t => outside_locks t = outside_locks s));
        [auto | | reflexivity].
      intros c p t Ht. rewrite lock_position_outside. exact Ht. }
    unfold outside_locks in Ho. injection Ho as Hi Hc _ _ _ Hf Hcl _. auto.
Qed.

(** X10. At every state an executor can reach, it has the account id and
    the configuration it was built with, and [failed_trades] and
    [closed_trades] are empty: nothing ever writes to them. *)
Theorem executor_keeps_identity (id : string) (c : AccountConfig) (s : Executor) :
  reachable id c s ->
  account_id s = id /\ config s = c /\
  failed_trades s = [] /\ closed_trades s = [].
Proof.
  induction 1 as [|s s' _ IH Hstep].
  - unfold init. cbn. destruct (cfg_monitoring_active c); repeat split.
  - apply step_static in Hstep.
    destruct Hstep as (-> & -> & -> & ->). exact IH.
Qed.

Lemma executor_keeps_identity_witness :
  let x := sample_exchange 1000 [long_btc] false (fun _ => true) in
  let s := (place_order x "BTCUSDT" "sell" "limit" "market"
              (init "account1" account1)).2 in
  config s = account1 /\ failed_trades s = [].
Proof.
  intros x s.
  assert (Hs : reachable "account1" account1 s).
  { eapply reachable_step; [apply reachable_init | apply step_place_order]. }
  destruct (executor_keeps_identity "account1" account1 s Hs) as (_ & Hc & Hf & _).
  split; [exact Hc | exact Hf].
Defined.

Lemma locks_grow_refl s : locks_grow s s.
Proof.
  split; [reflexivity|]. intros k l Hk. exists []. rewrite app_nil_r. exact Hk.
Qed.

Lemma locks_grow_trans s1 s2 s3 :
  locks_grow s1 s2 -> locks_grow s2 s3 -> locks_grow s1 s3.
Proof.
  intros [T1 L1] [T2 L2]. split; [lia|]. intros k l Hk.
  destruct (L1 k l Hk) as [l1 H1]. destruct (L2 k _ H1) as [l2 H2].
  exists (l1 ++ l2). rewrite H2, app_assoc. reflexivity.
Qed.

Lemma locks_grow_same s s' :
  profit_locks s' = profit_locks s ->
  total_profit_locks s <= total_profit_locks s' ->
  locks_grow s s'.
Proof.
  intros Hl Ht. split; [exact Ht|]. intros k l Hk. exists [].
  rewrite Hl, app_nil_r. exact Hk.
Qed.

Lemma locks_grow_append symbol ev s :
  locks_grow s (set_profit_locks (lock_append symbol ev (profit_locks s)) s).
Proof.
  split; [reflexivity|]. intros k l Hk. cbn.
  destruct (lock_append_lookup symbol ev (profit_locks s)) as [Hsame Hother].
  destruct (String.eq_dec k symbol) as [->|Hne].
  - rewrite Hsame, Hk. exists [ev]. reflexivity.
  - rewrite (Hother k Hne), Hk. exists []. rewrite app_nil_r. reflexivity.
Qed.

Lemma locks_grow_monitor_iteration x : respects locks_grow (monitor_iteration x).
Proof.
  unfold monitor_iteration, monitor_position, update_stop_loss,
    _record_profit_lock.
  respects_steps locks_grow_refl locks_grow_trans;
    first [ apply locks_grow_refl
          | apply locks_grow_append
          | apply locks_grow_same; cbn; [reflexivity | lia] ].
Qed.

(** X11. The histories only grow.  In any step of an executor,
    [trade_history] is extended by at most one record, [total_profit_locks]
    does not decrease, and the list of every symbol of [profit_locks] is
    kept and extended at its end. *)
Theorem histories_only_grow (s s' : Executor) :
  step s s' ->
  (exists l, trade_history s' = trade_history s ++ l /\ length l <= 1) /\
  total_profit_locks s <= total_profit_locks s' /\
  (forall k l, profit_locks s !! k = Some l ->
     exists l', profit_locks s' !! k = Some (l ++ l')).
Proof.
  intros Hstep.
  assert (Hsame : forall t, trade_history t = trade_history s ->
            exists l, trade_history t = trade_history s ++ l /\ length l <= 1).
  { intros t ->. exists []. rewrite app_nil_r. cbn. split; [reflexivity | lia]. }
  destruct Hstep as [x symbol side k1 k2 s|x s|action s|x s Hlive].
  - pose proof (place_order_spec x symbol side k1 k2 s) as [H Hr].
    apply exchange_only_fields in H. cbn in H.
    destruct H as (_ & _ & _ & _ & _ & _ & Hl & Ht & _). split.
    + destruct Hr as [(o & rec & _ & -> & _) | (msg & _ & Hth)]; [|auto].
      exists [rec]. cbn. split; [reflexivity | lia].
    + apply locks_grow_same; [exact Hl | lia].
  - pose proof (keeps_get_wallet_balance x s) as H. unfold wp in H.
    apply exchange_only_fields in H.
    destruct H as (_ & _ & _ & Hth & _ & _ & Hl & Ht & _).
    split; [auto | apply locks_grow_same; [exact Hl | lia]].
  - destruct (control_account_run action s) as [-> | [[b ->] | [_ ->]]];
      (split; [apply Hsame; reflexivity
              | apply locks_grow_same; cbn; [reflexivity | lia]]).
  - rewrite monitor_loop_top_run.
    destruct (monitoring_active s);
      [|split; [apply Hsame; reflexivity
               | apply locks_grow_same; cbn; [reflexivity | lia]]].
    split; [|exact (locks_grow_monitor_iteration x s)].
    apply Hsame.
    apply (monitor_iteration_keeps (fun t => trade_history t = trade_history s));
      [auto | | reflexivity].
    intros c p t Ht.
    pose proof (lock_position_outside x c p t) as Ho. unfold outside_locks in Ho.
    injection Ho as _ _ _ _ -> _ _ _. exact Ht.
Qed.

Lemma histories_only_grow_witness :
  let x := sample_exchange 1000 [long_btc; short_eth] true (fun _ => true) in
  let s := (monitor_loop_top x (init "account1" account1)).2 in
  let s' := (monitor_loop_top x s).2 in
  total_profit_locks s <= total_profit_locks s' /\
  total_profit_locks s = 2 /\ total_profit_locks s' = 4.
Proof.
  intros x s s'.
  assert (Hstep : step s s').
  { apply step_monitor. vm_compute. lia. }
  destruct (histories_only_grow s s' Hstep) as (_ & Hle & _).
  split; [exact Hle|]. vm_compute. split; reflexivity.
Defined.

(** ** The control route *)

(** X12. The actions of [control_account] compose as switches: toggling the
    monitor twice gives the executor back, resume after pause leaves trading
    enabled, pause twice is pause once, and any other action is refused with
    the executor untouched.  No action issues a request, starts or stops a
    thread, or touches the histories: pause flattens nothing and resume does
    not read the balance. *)
Theorem control_actions_compose (s : Executor) :
  (control_account "toggle_monitor"
     (control_account "toggle_monitor" s).2).2 = s /\
  (control_account "resume" (control_account "pause" s).2).2
    = set_trading_enabled true s /\
  control_account "pause" (control_account "pause" s).2
    = control_account "pause" s /\
  (forall action,
     action <> "pause" -> action <> "resume" -> action <> "toggle_monitor" ->
     control_account action s = (None, s)) /\
  (forall action,
     let s' := (control_account action s).2 in
     exchange_calls s' = exchange_calls s /\
     monitor_threads s' = monitor_threads s /\
     trade_history s' = trade_history s /\
     profit_locks s' = profit_locks s /\
     total_profit_locks s' = total_profit_locks s).
Proof.
  split; [|split; [|split; [|split]]].
  - cbn. rewrite negb_involutive. destruct s; reflexivity.
  - reflexivity.
  - reflexivity.
  - intros action Hp Hr Ht. unfold control_account.
    destruct (String.eqb_spec action "pause"); [contradiction|].
    destruct (String.eqb_spec action "resume"); [contradiction|].
    destruct (String.eqb_spec action "toggle_monitor"); [contradiction|].
    reflexivity.
  - intros action.
    destruct (control_account_run action s) as [-> | [[b ->] | [_ ->]]];
      repeat split.
Qed.

Lemma control_actions_compose_witness :
  let s := init "account1" account1 in
  control_account "stop" s = (None, s).
Proof.
  intros s. destruct (control_actions_compose s) as (_ & _ & _ & Hother & _).
  apply Hother; discriminate.
Defined.

(** ** Sides that are not buy *)

Lemma place_order_bracket_record x symbol side size P s :
  let (r, s') := place_order_bracket x symbol side size P s in
  forall o, r = Returns (ResSuccess o) ->
    exists now tp_str sl_str,
      trade_history s' =
        trade_history s ++
          [mkTradeRecord now symbol side size P
             (tp_price (config s) side P) (sl_price (config s) side P) o] /\
      last (exchange_calls s') =
        Some (CreateOrder (entry_order symbol side size tp_str sl_str)).
Proof.
  unfold place_order_bracket, _log_trade. run_step.
  destruct (x_price_to_precision x (exchange_calls s) symbol _) as [tp_str|e];
    [|discriminate].
  destruct (x_price_to_precision x _ symbol _) as [sl_str|e]; [|discriminate].
  destruct (x_create_order x _ _) as [o'|e]; [|discriminate].
  intros o [= <-]. eexists _, tp_str, sl_str. cbn.
  split; [reflexivity | apply last_snoc].
Qed.

(** The record of a placement that succeeds. *)
Lemma place_order_record x symbol side k1 k2 s :
  wp (place_order x symbol side k1 k2) s (fun r s' =>
    forall o, r = Returns (ResSuccess o) ->
      exists now size P tp_str sl_str,
        trade_history s' =
          trade_history s ++
            [mkTradeRecord now symbol side size P
               (tp_price (config s) side P) (sl_price (config s) side P) o] /\
        last (exchange_calls s') =
          Some (CreateOrder (entry_order symbol side size tp_str sl_str))).
Proof.
  unfold place_order. apply wp_try_except, wp_bind, wp_gets.
  destruct (trading_enabled s); cbn [negb]; [|apply wp_ret; discriminate].
  apply wp_bind. eapply wp_mono; [apply keeps_check_existing_position|].
  intros [found|e] s1 H1; [|apply wp_ret; discriminate].
  unfold place_order_sized. apply wp_bind.
  eapply wp_mono; [apply keeps_set_leverage|]. cbn beta.
  intros [[]|e] s2 H2; pose proof (exchange_only_trans _ _ _ H1 H2) as H12;
    [|apply wp_ret; discriminate].
  apply wp_bind. eapply wp_mono; [apply keeps_calculate_position_size|]. cbn beta.
  intros [[size P]|e] s3 H3; pose proof (exchange_only_trans _ _ _ H12 H3) as H13;
    [|apply wp_ret; discriminate].
  pose proof (place_order_bracket_record x symbol side size P s3) as Hb.
  unfold wp. destruct (place_order_bracket x symbol side size P s3) as [r s4].
  cbn [fst snd].
  apply exchange_only_fields in H13.
  destruct H13 as (_ & Hc & _ & Hth & _).
  rewrite Hc, Hth in Hb.
  destruct r as [res|e]; [|apply wp_ret; discriminate].
  intros o Ho. destruct (Hb o Ho) as (now & tp_str & sl_str & Hrec & Hlast).
  exists now, size, P, tp_str, sl_str. auto.
Qed.

(** X13. The executor compares sides with buy only.  When [place_order]
    succeeds for a requested side whose lower case is not buy, whatever it
    is, the trade it logs has the bracket of a sell, take profit below the
    entry price and stop loss above, and the order went out on the side as
    given, lower-cased.  For a position whose side is not buy, whatever it
    is, [update_stop_loss] asks for the rounding of [markPrice * 1.001] and
    submits its stop order on the side buy with that trigger.  When no
    fetched position has the side buy, every order that
    [close_all_positions] submits is on the side buy. *)
Theorem sides_other_than_buy (x : Exchange) (s : Executor) :
  (forall symbol side k1 k2 o s',
     lower side <> "buy" ->
     place_order x symbol side k1 k2 s = (Returns (ResSuccess o), s') ->
     exists rec size tp_str sl_str,
       trade_history s' = trade_history s ++ [rec] /\
       tr_side rec = side /\ tr_order rec = o /\
       tr_tp_price rec
         = (tr_entry_price rec * (1 - initial_tp_percentage (config s)))%float /\
       tr_sl_price rec
         = (tr_entry_price rec * (1 + initial_sl_percentage (config s)))%float /\
       last (exchange_calls s')
         = Some (CreateOrder (entry_order symbol side size tp_str sl_str)) /\
       ord_side (entry_order symbol side size tp_str sl_str) = lower side) /\
  (forall p price,
     pos_side p <> "buy" ->
     x_price_to_precision x (exchange_calls s) (pos_symbol p)
       (markPrice p * 1.001)%float = Returns price ->
     exists o,
       exchange_calls (update_stop_loss x p s).2 =
         exchange_calls s ++
           [PriceToPrecision (pos_symbol p) (markPrice p * 1.001)%float;
            CreateOrder o] /\
       ord_type o = "stop" /\ ord_side o = "buy" /\ ord_price o = Some price /\
       In ("triggerPrice", VFloat (markPrice p * 1.001)%float) (ord_params o)) /\
  (forall positions,
     x_fetch_positions x (exchange_calls s) None = Returns positions ->
     Forall (fun p => pos_side p <> "buy") positions ->
     exists l,
       exchange_calls (close_all_positions x s).2 =
         exchange_calls s ++ FetchPositions None :: l /\
       Forall (fun c => exists o, c = CreateMarketOrder o /\ ord_side o = "buy") l).
Proof.
  split; [|split].
  - intros symbol side k1 k2 o s' Hne Hrun.
    pose proof (place_order_record x symbol side k1 k2 s) as H.
    unfold wp in H. rewrite Hrun in H. cbn [fst snd] in H.
    destruct (H o eq_refl) as (now & size & P & tp_str & sl_str & Hrec & Hlast).
    eexists _, size, tp_str, sl_str. split; [exact Hrec|]. cbn.
    unfold tp_price, sl_price.
    destruct (String.eqb_spec (lower side) "buy"); [contradiction|].
    repeat split. exact Hlast.
  - intros p price Hne Hprice.
    assert (Hsl : new_sl p = (markPrice p * 1.001)%float).
    { unfold new_sl. destruct (String.eqb_spec (pos_side p) "buy");
        [contradiction | reflexivity]. }
    exists (stop_order p price). rewrite <- Hsl in *. split; [|repeat split].
    + unfold update_stop_loss. run_step. rewrite Hprice.
      destruct (x_create_order x _ _); cbn; rewrite <- app_assoc; reflexivity.
    + cbn. unfold closing_side.
      destruct (String.eqb_spec (pos_side p) "buy"); [contradiction | reflexivity].
    + cbn. left. reflexivity.
  - intros positions Hfetch Hall.
    pose proof (close_all_positions_spec x s) as H.
    destruct (close_all_positions x s) as [r s']. cbn [snd].
    destruct H as (_ & attempted & -> & Hatt). rewrite Hfetch in Hatt.
    destruct Hatt as (rest & Hsplit & _).
    eexists. split; [reflexivity|].
    apply Forall_fmap, Forall_forall. intros p Hp. cbn.
    exists (flatten_order p). split; [reflexivity|].
    assert (Hin : In p positions).
    { apply (proj1 (filter_In (fun p => PrimFloat.ltb 0 (abs_contracts p))
                      p positions)).
      rewrite Hsplit. apply in_or_app. left. apply list_elem_of_In, Hp. }
    apply list_elem_of_In in Hin.
    rewrite Forall_forall in Hall. specialize (Hall p Hin).
    cbn. unfold closing_side.
    destruct (String.eqb_spec (pos_side p) "buy"); [contradiction | reflexivity].
Qed.

Lemma sides_other_than_buy_witness :
  let p := mkPosition "BTCUSDT" "long" 10%float 30%float 100%float 103%float in
  let x := sample_exchange 1000 [p] true (fun _ => true) in
  let s := init "account1" account1 in
  (exists rec,
     trade_history (place_order x "BTCUSDT" "hold" "limit" "market" s).2 = [rec] /\
     tr_tp_price rec = (tr_entry_price rec * (1 - 0.3))%float /\
     tr_sl_price rec = (tr_entry_price rec * (1 + 0.05))%float) /\
  (exists o,
     exchange_calls (update_stop_loss x p s).2 =
       [PriceToPrecision "BTCUSDT" (103 * 1.001)%float; CreateOrder o] /\
     ord_side o = "buy") /\
  exists l,
    exchange_calls (close_all_positions x s).2 = FetchPositions None :: l /\
    Forall (fun c => exists o, c = CreateMarketOrder o /\ ord_side o = "buy") l.
Proof.
  intros p x s. destruct (sides_other_than_buy x s) as (Hplace & Hstop & Hclose).
  split; [|split].
  - destruct (Hplace "BTCUSDT" "hold" "limit" "market" "order-1"
                (place_order x "BTCUSDT" "hold" "limit" "market" s).2)
      as (rec & _ & _ & _ & Hrec & _ & _ & Htp & Hsl & _);
      [discriminate | vm_compute; reflexivity |].
    exists rec. split; [exact Hrec|]. split; [exact Htp | exact Hsl].
  - destruct (Hstop p "price") as (o & Hcalls & _ & Hside & _);
      [discriminate | reflexivity |].
    exists o. split; [exact Hcalls | exact Hside].
  - destruct (Hclose [p] eq_refl) as (l & Hcalls & Hall).
    { repeat constructor. discriminate. }
    exists l. split; [exact Hcalls | exact Hall].
Defined.

(** ** The account routes *)

(** What an account route leaves alone. *)
Lemma on_account_frame {A} (accounts : Accounts) (account_id : string)
    (handler : Exchange -> Executor -> A * Executor) :
  let (answer, accounts') := on_account accounts account_id handler in
  map (fun a => (a.1, a.2.1)) accounts' = map (fun a => (a.1, a.2.1)) accounts /\
  (account_id ∉ accounts.*1 -> answer = None /\ accounts' = accounts) /\
  (account_id ∈ accounts.*1 -> answer <> None) /\
  (forall id x s, id <> account_id ->
     (id, (x, s)) ∈ accounts' <-> (id, (x, s)) ∈ accounts).
Proof.
  induction accounts as [|[id [x s]] rest IH]; cbn [on_account].
  - split; [reflexivity|]. split; [auto|]. split; [|reflexivity].
    intros H. apply elem_of_nil in H. destruct H.
  - destruct (String.eqb_spec id account_id) as [->|Hne].
    + destruct (handler x s) as [a s']. split; [reflexivity|].
      split; [intros H; exfalso; apply H; cbn; left|].
      split; [discriminate|].
      intros id' x' s0 Hid. rewrite !elem_of_cons. split.
      * intros [[= -> _ _]|H]; [contradiction | right; exact H].
      * intros [[= -> _ _]|H]; [contradiction | right; exact H].
    + destruct (on_account rest account_id handler) as [a rest'].
      destruct IH as (Hids & Hunknown & Hknown & Hothers). split; [|split; [|split]].
      * cbn. rewrite Hids. reflexivity.
      * intros H. cbn in H. rewrite not_elem_of_cons in H. destruct H as [_ H].
        destruct (Hunknown H) as [-> ->]. split; reflexivity.
      * intros H. cbn in H. rewrite elem_of_cons in H.
        destruct H as [H|H]; [congruence | exact (Hknown H)].
      * intros id' x' s0 Hid. rewrite !elem_of_cons, (Hothers id' x' s0 Hid).
        reflexivity.
Qed.

(** What an account route does to the account asked for. *)
Lemma on_account_found {A} (handler : Exchange -> Executor -> A * Executor)
    (account_id : string) (x : Exchange) (s : Executor) (after : Accounts) :
  forall before : Accounts,
  account_id ∉ before.*1 ->
  on_account (before ++ (account_id, (x, s)) :: after) account_id handler =
    (Some (handler x s).1,
     before ++ (account_id, (x, (handler x s).2)) :: after).
Proof.
  induction before as [|[id [y t]] before IH]; intros Hfresh; cbn [on_account app].
  - rewrite String.eqb_refl. destruct (handler x s); reflexivity.
  - cbn in Hfresh. rewrite not_elem_of_cons in Hfresh. destruct Hfresh as [Hne Hfresh].
    destruct (String.eqb_spec id account_id) as [->|_]; [contradiction|].
    rewrite (IH Hfresh). reflexivity.
Qed.

(** X14. An account route runs its handler on the executor of the account
    asked for, and on no other.  For an unknown account it answers 404 and
    changes nothing.  For a known one its answer is the handler's, run with
    the exchange and the executor of that account, and that executor
    becomes the one the handler leaves; so the control route answers and
    acts as [control_account] on that executor, and the status route as
    [get_account_status].  The accounts keep their ids, their order and
    their exchanges, and every other account keeps its executor. *)
Theorem account_routes_isolated {A} (accounts : Accounts) (account_id : string)
    (handler : Exchange -> Executor -> A * Executor) :
  (let (answer, accounts') := on_account accounts account_id handler in
   map (fun a => (a.1, a.2.1)) accounts' = map (fun a => (a.1, a.2.1)) accounts /\
   (account_id ∉ accounts.*1 -> answer = None /\ accounts' = accounts) /\
   (account_id ∈ accounts.*1 -> answer <> None) /\
   (forall id x s, id <> account_id ->
      (id, (x, s)) ∈ accounts' <-> (id, (x, s)) ∈ accounts)) /\
  (forall before x s after,
     accounts = before ++ (account_id, (x, s)) :: after ->
     account_id ∉ before.*1 ->
     on_account accounts account_id handler =
       (Some (handler x s).1,
        before ++ (account_id, (x, (handler x s).2)) :: after) /\
     (forall action,
        control_route accounts account_id action =
          (Some (control_account action s).1,
           before ++ (account_id, (x, (control_account action s).2)) :: after)) /\
     status_route accounts account_id =
       (Some (get_account_status x s).1,
        before ++ (account_id, (x, (get_account_status x s).2)) :: after)).
Proof.
  split; [apply on_account_frame|].
  intros before x s after -> Hfresh. split; [|split].
  - apply on_account_found, Hfresh.
  - intros action. unfold control_route.
    apply (on_account_found (fun _ t => control_account action t)), Hfresh.
  - unfold status_route. apply (on_account_found get_account_status), Hfresh.
Qed.

Lemma account_routes_isolated_witness :
  let x := sample_exchange 1000 [long_btc] true (fun _ => true) in
  let accounts := [("account1", (x, init "account1" account1));
                   ("account2", (x, init "account2" account_idle))] in
  control_route accounts "account3" "pause" = (None, accounts) /\
  control_route accounts "account2" "pause" =
    (Some (Some "Trading paused"),
     [("account1", (x, init "account1" account1));
      ("account2", (x, set_trading_enabled false (init "account2" account_idle)))]).
Proof.
  intros x accounts. split.
  - destruct (account_routes_isolated accounts "account3"
                (fun _ s => control_account "pause" s)) as [H3 _].
    unfold control_route.
    destruct (on_account accounts "account3" _) as [a3 acc3].
    destruct H3 as (_ & Hunknown & _).
    destruct Hunknown as [-> ->]; [|reflexivity].
    cbn. rewrite !not_elem_of_cons. repeat split; try discriminate.
    apply not_elem_of_nil.
  - destruct (account_routes_isolated accounts "account2"
                (fun _ s => control_account "pause" s)) as [_ H2].
    destruct (H2 [("account1", (x, init "account1" account1))] x
                (init "account2" account_idle) [] eq_refl) as (_ & Hcontrol & _).
    { cbn. rewrite not_elem_of_cons. split; [discriminate | apply not_elem_of_nil]. }
    exact (Hcontrol "pause").
Defined.

(** ** The webhook *)

Lemma webhook_loop_spec symbol side tp sl (accounts : Accounts) :
  forall responses,
  NoDup accounts.*1 ->
  let (responses', accounts') := webhook_loop symbol side tp sl accounts responses in
  accounts' =
    map (fun a => (a.1, (a.2.1, (webhook_account symbol side tp sl a.1 a.2.1 a.2.2).2)))
      accounts /\
  (forall k, k ∉ accounts.*1 -> responses' !! k = responses !! k) /\
  (forall id x s, (id, (x, s)) ∈ accounts ->
     responses' !! id = Some (webhook_account symbol side tp sl id x s).1).
Proof.
  induction accounts as [|[id [x s]] rest IH]; intros responses Hnodup.
  - cbn. split; [reflexivity|]. split; [reflexivity|].
    intros id x s H. apply elem_of_nil in H. destruct H.
  - cbn [webhook_loop]. cbn in Hnodup. apply NoDup_cons in Hnodup as [Hfresh Hnodup].
    destruct (webhook_account symbol side tp sl id x s) as [r s1] eqn:E.
    specialize (IH (<[id := r]> responses) Hnodup).
    destruct (webhook_loop symbol side tp sl rest _) as [responses' rest'].
    destruct IH as (-> & Hout & Hin). split; [|split].
    + cbn. rewrite E. reflexivity.
    + intros k Hk. cbn in Hk. rewrite not_elem_of_cons in Hk. destruct Hk as [Hne Hk].
      rewrite (Hout k Hk). apply lookup_insert_ne. congruence.
    + intros id' x' s' H. rewrite elem_of_cons in H.
      destruct H as [[= -> -> ->]|H]; [|exact (Hin id' x' s' H)].
      rewrite (Hout id Hfresh), lookup_insert_eq, E. reflexivity.
Qed.

(** X15. [webhook] refuses a signal without a side or without a symbol with
    the answer 400, and touches no executor.  Otherwise it answers 200
    whatever happens to the placements, with one response for each account
    and for no other id.  An account with trading disabled gets the error
    [Trading is disabled for account <id>] and its executor is untouched; an
    account with trading enabled gets the result of its own [place_order],
    with the order kinds of the signal or the defaults limit and market.  The
    accounts keep their ids, their order and their exchanges. *)
Theorem webhook_answers (data : gmap string string) (accounts : Accounts) :
  (data !! "side" = None \/ data !! "symbol" = None ->
   webhook data accounts =
     (WebhookRejected 400 "Missing required fields: ['side', 'symbol']", accounts)) /\
  (forall side symbol,
     data !! "side" = Some side -> data !! "symbol" = Some symbol ->
     NoDup accounts.*1 ->
     let tp := default "limit" (data !! "tpOrderType") in
     let sl := default "market" (data !! "slOrderType") in
     exists responses accounts',
       webhook data accounts = (WebhookAccepted responses, accounts') /\
       map (fun a => (a.1, a.2.1)) accounts' = map (fun a => (a.1, a.2.1)) accounts /\
       (forall k, k ∉ accounts.*1 -> responses !! k = None) /\
       (forall id x s, (id, (x, s)) ∈ accounts ->
          exists r s',
            responses !! id = Some r /\ (id, (x, s')) ∈ accounts' /\
            (trading_enabled s = false ->
             r = ResError ("Trading is disabled for account " ++ id) /\ s' = s) /\
            (trading_enabled s = true ->
             place_order x symbol side tp sl s = (Returns r, s')))).
Proof.
  split.
  - intros H. unfold webhook. destruct (data !! "side") as [side|];
      [|reflexivity].
    destruct H as [H|H]; [discriminate|]. rewrite H. reflexivity.
  - intros side symbol Hside Hsymbol Hnodup tp sl. unfold webhook.
    rewrite Hside, Hsymbol. fold tp. fold sl.
    pose proof (webhook_loop_spec symbol side tp sl accounts ∅ Hnodup) as H.
    destruct (webhook_loop symbol side tp sl accounts ∅) as [responses accounts'].
    destruct H as (-> & Hout & Hin).
    eexists _, _. split; [reflexivity|]. split; [|split].
    + rewrite map_map. reflexivity.
    + intros k Hk. rewrite (Hout k Hk). apply lookup_empty.
    + intros id x s Hmem.
      exists (webhook_account symbol side tp sl id x s).1,
             (webhook_account symbol side tp sl id x s).2.
      split; [exact (Hin id x s Hmem)|]. split; [|split].
      * apply list_elem_of_In. apply in_map_iff. exists (id, (x, s)).
        split; [reflexivity | apply list_elem_of_In, Hmem].
      * intros Hoff. unfold webhook_account. rewrite Hoff. split; reflexivity.
      * intros Hon. unfold webhook_account. rewrite Hon. cbn [negb].
        pose proof (place_order_spec x symbol side tp sl s) as Hspec.
        unfold wp in Hspec.
        destruct (place_order x symbol side tp sl s) as [r s'].
        cbn [fst snd] in Hspec.
        destruct Hspec as [_ [(o & rec & -> & _) | (msg & -> & _)]]; reflexivity.
Qed.

Lemma webhook_answers_witness :
  let x := sample_exchange 1000 [long_btc] true (fun _ => true) in
  let off := set_trading_enabled false (init "account2" account_idle) in
  let accounts := [("account1", (x, init "account1" account1));
                   ("account2", (x, off))] in
  let data : gmap string string :=
    <["symbol" := "BTCUSDT"]> (<["side" := "buy"]> ∅) in
  webhook (<["symbol" := "BTCUSDT"]> ∅) accounts =
    (WebhookRejected 400 "Missing required fields: ['side', 'symbol']", accounts) /\
  exists responses accounts',
    webhook data accounts = (WebhookAccepted responses, accounts') /\
    responses !! "account1" = Some (ResSuccess "order-1") /\
    responses !! "account2"
      = Some (ResError "Trading is disabled for account account2") /\
    responses !! "account3" = None.
Proof.
  intros x off accounts data.
  destruct (webhook_answers (<["symbol" := "BTCUSDT"]> ∅) accounts) as [Hbad _].
  split; [apply Hbad; left; reflexivity|].
  destruct (webhook_answers data accounts) as [_ Hok].
  assert (Hnodup : NoDup accounts.*1).
  { cbn. repeat constructor; rewrite ?elem_of_cons, ?elem_of_nil;
      intros H; repeat destruct H as [H|H]; try discriminate H; exact H. }
  destruct (Hok "buy" "BTCUSDT" eq_refl eq_refl Hnodup)
    as (responses & accounts' & Hrun & _ & Hout & Hin).
  exists responses, accounts'. split; [exact Hrun|].
  destruct (Hin "account1" x (init "account1" account1)) as (r1 & s1 & H1 & _ & _ & Hon1);
    [left|].
  destruct (Hin "account2" x off) as (r2 & s2 & H2 & _ & Hoff2 & _);
    [right; left|].
  split; [|split].
  - rewrite H1. specialize (Hon1 eq_refl). vm_compute in Hon1.
    injection Hon1 as <- _. reflexivity.
  - rewrite H2. destruct (Hoff2 eq_refl) as [-> _]. reflexivity.
  - apply Hout. cbn. rewrite !not_elem_of_cons. repeat split; try discriminate.
    apply not_elem_of_nil.
Defined.
